(** * dbgen: struct-tag driven generation of DBObject methods

    A shallow embedding of [dbgen/main.go] (the tag parser [sqlTags], the
    declaration visitor [genDecl], the method synthesizer [buildWrappers]
    and the driver [generate]) together with the properties the
    specification states about them.

    Conventions
    - Go strings are [string]; slices are [list]; [map[string]string] is
      [gmap string string]; [map[string]struct{}] is [gset string].
    - A run-time panic (index or slice bounds out of range) is the
      [Panic] outcome of the [result] type.
    - [reflect.StructTag.Get] belongs to the Go standard library, not to
      this repository: the embedding takes it as the section variable
      [Get]; every general theorem holds for any such accessor.  A
      reference implementation, [StructTag_Get], is used for the closed
      examples. *)

From stdpp Require Import base option list gmap strings.
From Stdlib Require Import Ascii String.

Local Open Scope string_scope.
Local Open Scope list_scope.

(** ** Outcomes of code that may panic *)

Inductive result (A : Type) : Type :=
| Ok (a : A)
| Panic.
Arguments Ok {A} a.
Arguments Panic {A}.

#[global] Instance result_ret : MRet result := fun _ a => Ok a.
#[global] Instance result_bind : MBind result := fun _ _ f r =>
  match r with
  | Ok a => f a
  | Panic => Panic
  end.

(** ** Small pieces of the Go standard library *)

(** [len(s) > 0] on a Go string. *)
Definition nonempty (s : string) : bool :=
  match s with
  | EmptyString => false
  | String _ _ => true
  end.

(** [strings.Join(a, sep)]. *)
Fixpoint Join (a : list string) (sep : string) : string :=
  match a with
  | [] => EmptyString
  | [x] => x
  | x :: rest => x +:+ sep +:+ Join rest sep
  end.

(** [strconv.ParseBool]: [None] stands for the syntax error. *)
Definition ParseBool (str : string) : option bool :=
  if decide (str ∈ ["1"; "t"; "T"; "TRUE"; "true"; "True"]) then Some true
  else if decide (str ∈ ["0"; "f"; "F"; "FALSE"; "false"; "False"]) then Some false
  else None.

(** The three characters the templates need that a literal cannot hold
    conveniently. *)
Definition dq : string := String (ascii_of_nat 34) EmptyString.
Definition nl : string := String (ascii_of_nat 10) EmptyString.
Definition tab : string := String (ascii_of_nat 9) EmptyString.

(** ** Data model *)

(** [ast.Field], reduced to what [sqlTags] reads: the declared names (empty
    for an embedded field) and the tag literal, delimiters included
    ([None] for a field without tag). *)
Record Field : Type := mkField {
  Names : list string;
  Tag : option string
}.

Record SQLInfo : Type := mkSQLInfo {
  Name : string;                 (* type name *)
  Table : string;                (* sql table *)
  KeyName : string;              (* member name for key *)
  KeyField : string;             (* sql field for key *)
  UserField : string;            (* member for user id *)
  TimeField : string;            (* member for timestamp *)
  Order : list string;           (* members in order *)
  Fields : gmap string string;   (* [memberName]sqlName *)
  NoUpdate : gset string
}.

Definition set_Name (v : string) (i : SQLInfo) : SQLInfo :=
  mkSQLInfo v (Table i) (KeyName i) (KeyField i) (UserField i) (TimeField i)
            (Order i) (Fields i) (NoUpdate i).
Definition set_Table (v : string) (i : SQLInfo) : SQLInfo :=
  mkSQLInfo (Name i) v (KeyName i) (KeyField i) (UserField i) (TimeField i)
            (Order i) (Fields i) (NoUpdate i).
Definition set_Key (kname kfield : string) (i : SQLInfo) : SQLInfo :=
  mkSQLInfo (Name i) (Table i) kname kfield (UserField i) (TimeField i)
            (Order i) (Fields i) (NoUpdate i).
Definition add_Field (member column : string) (i : SQLInfo) : SQLInfo :=
  mkSQLInfo (Name i) (Table i) (KeyName i) (KeyField i) (UserField i) (TimeField i)
            (Order i ++ [member]) (<[member := column]> (Fields i)) (NoUpdate i).
Definition set_UserField (v : string) (i : SQLInfo) : SQLInfo :=
  mkSQLInfo (Name i) (Table i) (KeyName i) (KeyField i) v (TimeField i)
            (Order i) (Fields i) (NoUpdate i).
Definition set_TimeField (v : string) (i : SQLInfo) : SQLInfo :=
  mkSQLInfo (Name i) (Table i) (KeyName i) (KeyField i) (UserField i) v
            (Order i) (Fields i) (NoUpdate i).
Definition add_NoUpdate (member : string) (i : SQLInfo) : SQLInfo :=
  mkSQLInfo (Name i) (Table i) (KeyName i) (KeyField i) (UserField i) (TimeField i)
            (Order i) (Fields i) ({[member]} ∪ NoUpdate i).

(** [SQLInfo{}] after the three [make] calls at the head of [sqlTags]. *)
Definition emptyInfo : SQLInfo :=
  mkSQLInfo EmptyString EmptyString EmptyString EmptyString EmptyString EmptyString
            [] ∅ ∅.

(** [field.Names[0].Name]: out of range for an embedded field. *)
Definition firstName (field : Field) : result string :=
  match Names field with
  | n :: _ => Ok n
  | [] => Panic
  end.

(** [s[1 : len(s)-1]]: the tag literal without its delimiters. *)
Definition stripQuotes (s : string) : result string :=
  if Nat.leb 2 (String.length s)
  then Ok (substring 1 (String.length s - 2) s)
  else Panic.

(** ** The tag parser *)

Section TagParser.

(** [Get tag key] is [reflect.StructTag(tag).Get(key)]. *)
Variable Get : string -> string -> string.

(** The [sql] block of the loop body of [sqlTags]. *)
Definition sqlBlock (tag : string) (field : Field) (st : SQLInfo * bool)
  : result (SQLInfo * bool) :=
  let sql := Get tag "sql" in
  if nonempty sql then
    let table := Get tag "table" in
    let info := if nonempty table then set_Table table st.1 else st.1 in
    let key := Get tag "key" in
    n ← firstName field;
    let info := if nonempty key then set_Key n sql info else add_Field n sql info in
    mret (info, true)
  else mret st.

(** The [audit] block. *)
Definition auditBlock (tag : string) (field : Field) (st : SQLInfo * bool)
  : result (SQLInfo * bool) :=
  let audit := Get tag "audit" in
  if nonempty audit then
    if decide (audit = "user") then
      n ← firstName field; mret (set_UserField n st.1, st.2)
    else if decide (audit = "time") then
      n ← firstName field; mret (set_TimeField n st.1, st.2)
    else mret st
  else mret st.

(** The [update] block. *)
Definition updateBlock (tag : string) (field : Field) (st : SQLInfo * bool)
  : result (SQLInfo * bool) :=
  let update := Get tag "update" in
  if nonempty update then
    match ParseBool update with
    | Some false => n ← firstName field; mret (add_NoUpdate n st.1, st.2)
    | _ => mret st
    end
  else mret st.

(** One iteration of [for _, field := range fields.List]; the state is
    [info] and the flag [good]. *)
Definition sqlTagsField (st : SQLInfo * bool) (field : Field)
  : result (SQLInfo * bool) :=
  match Tag field with
  | None => mret st
  | Some s =>
      tag ← stripQuotes s;
      st1 ← sqlBlock tag field st;
      st2 ← auditBlock tag field st1;
      updateBlock tag field st2
  end.

Fixpoint sqlTagsLoop (st : SQLInfo * bool) (fields : list Field)
  : result (SQLInfo * bool) :=
  match fields with
  | [] => mret st
  | field :: rest => st' ← sqlTagsField st field; sqlTagsLoop st' rest
  end.

(** [sqlTags]: [Ok None] is the nil descriptor. *)
Definition sqlTags (typeName : string) (fields : list Field)
  : result (option SQLInfo) :=
  match sqlTagsLoop (emptyInfo, false) fields with
  | Ok (info, good) => Ok (if good then Some info else None)
  | Panic => Panic
  end.

End TagParser.

(** ** Reference implementation of the tag accessor

    Modelled on [reflect.StructTag.Lookup] of the Go standard library: the
    conventional space separated key:value pairs, the value quoted.  [strconv.Unquote] is
    covered on the fragment the examples use, a value of printable ASCII
    without escape sequence; outside of it [Unquote] answers [None], which
    the accessor turns into the empty string. *)

Module StructTag.

Definition byte (c : ascii) : nat := nat_of_ascii c.

(** Skip leading space. *)
Fixpoint skipSpaces (t : list ascii) : list ascii :=
  match t with
  | c :: t' => if Nat.eqb (byte c) 32 then skipSpaces t' else t
  | [] => []
  end.

(** A byte of a key: above the space, and neither the colon (58), the
    quote (34) nor DEL (127). *)
Definition nameChar (c : ascii) : bool :=
  Nat.ltb 32 (byte c) && negb (Nat.eqb (byte c) 58)
  && negb (Nat.eqb (byte c) 34) && negb (Nat.eqb (byte c) 127).

(** Scan to colon: [(tag[:i], tag[i:])]. *)
Fixpoint scanName (t : list ascii) : list ascii * list ascii :=
  match t with
  | c :: t' =>
      if nameChar c then (c :: (scanName t').1, (scanName t').2) else ([], t)
  | [] => ([], [])
  end.

(** Scan the quoted string; the argument starts after the opening quote
    (byte 34), a backslash (byte 92) protects the byte that follows it.
    Answers the text between the quotes and what follows the closing
    quote, [None] when the closing quote is missing. *)
Fixpoint scanValue (t : list ascii) : option (list ascii * list ascii) :=
  match t with
  | [] => None
  | c :: t' =>
      if Nat.eqb (byte c) 34 then Some ([], t')
      else if Nat.eqb (byte c) 92 then
        match t' with
        | [] => None
        | c2 :: t'' =>
            match scanValue t'' with
            | Some (v, r) => Some (c :: c2 :: v, r)
            | None => None
            end
        end
      else
        match scanValue t' with
        | Some (v, r) => Some (c :: v, r)
        | None => None
        end
  end.

Definition plain (c : ascii) : bool :=
  Nat.leb 32 (byte c) && Nat.ltb (byte c) 127 && negb (Nat.eqb (byte c) 92).

Definition Unquote (inner : list ascii) : option string :=
  if forallb plain inner then Some (string_of_list_ascii inner) else None.

Fixpoint lookupLoop (fuel : nat) (tag key : list ascii) : option string :=
  match fuel with
  | O => None
  | S fuel' =>
      match skipSpaces tag with
      | [] => None
      | c :: t =>
          let name := (scanName (c :: t)).1 in
          match name, (scanName (c :: t)).2 with
          | _ :: _, colon :: q :: rest =>
              if Nat.eqb (byte colon) 58 && Nat.eqb (byte q) 34 then
                match scanValue rest with
                | None => None
                | Some (v, tag') =>
                    if decide (key = name) then Unquote v
                    else lookupLoop fuel' tag' key
                end
              else None
          | _, _ => None
          end
      end
  end.

Definition Lookup (tag key : string) : option string :=
  lookupLoop (S (String.length tag))
             (list_ascii_of_string tag) (list_ascii_of_string key).

End StructTag.

Definition StructTag_Get (tag key : string) : string :=
  default EmptyString (StructTag.Lookup tag key).

(** ** The generated text *)

(** Each template takes the operands of its [%[n]s] verbs, in order. *)

Definition generatorHeader (tname : string) : string :=
  nl +:+ nl +:+ "//" +:+ nl +:+ "// " +:+ tname +:+ " DBObject generator" +:+ nl
     +:+ "//" +:+ nl.

Definition interfaceHeader (tname : string) : string :=
  nl +:+ "//" +:+ nl +:+ "// " +:+ tname +:+ " DBObject interface functions" +:+ nl
     +:+ "//" +:+ nl.

Definition stringInsertValues (tname elems : string) : string :=
  "func (o *" +:+ tname +:+ ") InsertValues() []interface{} {" +:+ nl
  +:+ tab +:+ "return []interface{}{" +:+ elems +:+ "}" +:+ nl
  +:+ "}" +:+ nl +:+ nl.

Definition stringUpdateValues (tname elems : string) : string :=
  "func (o *" +:+ tname +:+ ") UpdateValues() []interface{} {" +:+ nl
  +:+ tab +:+ "return []interface{}{" +:+ elems +:+ "}" +:+ nl
  +:+ "}" +:+ nl +:+ nl.

Definition stringMemberPointers (tname ptrs : string) : string :=
  "func (o *" +:+ tname +:+ ") MemberPointers() []interface{} {" +:+ nl
  +:+ tab +:+ "return []interface{}{" +:+ ptrs +:+ "}" +:+ nl
  +:+ "}" +:+ nl +:+ nl.

Definition stringKey (tname key : string) : string :=
  "func (o *" +:+ tname +:+ ") Key() int64 {" +:+ nl
  +:+ tab +:+ "return o." +:+ key +:+ nl
  +:+ "}" +:+ nl +:+ nl.

Definition stringNoKey (tname : string) : string :=
  "func (o *" +:+ tname +:+ ") Key() int64 {" +:+ nl
  +:+ tab +:+ "return 0" +:+ nl
  +:+ "}" +:+ nl +:+ nl.

Definition stringSetID (tname key : string) : string :=
  "func (o *" +:+ tname +:+ ") SetID(id int64) {" +:+ nl
  +:+ tab +:+ "o." +:+ key +:+ " = id" +:+ nl
  +:+ "}" +:+ nl +:+ nl.

Definition stringNoSetID (tname : string) : string :=
  "func (o *" +:+ tname +:+ ") SetID(id int64) {" +:+ nl
  +:+ "}" +:+ nl +:+ nl.

(** The five accessors that return one string literal share their text
    but for the name of the method. *)
Definition stringAccessor (method tname lit : string) : string :=
  "func (o *" +:+ tname +:+ ") " +:+ method +:+ "() string {" +:+ nl
  +:+ tab +:+ "return " +:+ dq +:+ lit +:+ dq +:+ nl
  +:+ "}" +:+ nl +:+ nl.

Definition stringTableName := stringAccessor "TableName".
Definition stringKeyField := stringAccessor "KeyField".
Definition stringKeyName := stringAccessor "KeyName".
Definition stringSelectFields := stringAccessor "SelectFields".
Definition stringInsertFields := stringAccessor "InsertFields".

Definition stringNewObj (tname : string) : string :=
  "func (o " +:+ tname +:+ ") NewObj() interface{} {" +:+ nl
  +:+ tab +:+ "return new(" +:+ tname +:+ ")" +:+ nl
  +:+ "}" +:+ nl +:+ nl.

Definition stringNames (tname members : string) : string :=
  "func (o *" +:+ tname +:+ ") Names() []string {" +:+ nl
  +:+ tab +:+ "return []string{" +:+ members +:+ "}" +:+ nl
  +:+ "}" +:+ nl +:+ nl.

Definition stringSQLGet (tname table fields where_ : string) : string :=
  "func (o *" +:+ tname +:+ ") SQLGet(keys interface{}...) string {" +:+ nl
  +:+ tab +:+ "return " +:+ dq +:+ "select " +:+ fields +:+ " from " +:+ table
  +:+ " where " +:+ where_ +:+ ";" +:+ dq +:+ nl
  +:+ "}" +:+ nl +:+ nl.

(** [auditString].  Its result is handed to [Printf] as the format, without
    operand; the three strings are Go identifiers, which hold no percent
    sign, so that [Printf] emits the result unchanged. *)
Definition auditString (tname u t : string) : string :=
  "func (o *" +:+ tname +:+ ") ModifiedBy(user int64, t time.Time) {" +:+ nl
  +:+ (if nonempty u then "o." +:+ u +:+ " = &user" +:+ nl else EmptyString)
  +:+ (if nonempty t then "o." +:+ t +:+ " = t" +:+ nl else EmptyString)
  +:+ "}" +:+ nl +:+ nl +:+ nl.

(** ** The method synthesizer *)

(** The six slices [buildWrappers] fills. *)
Record Slices : Type := mkSlices {
  w_names : list string;
  w_elem : list string;
  w_ptr : list string;
  w_set : list string;
  w_sql : list string;
  w_insert_fields : list string
}.

(** The slices before the loop: the key column and the key member come
    first. *)
Definition initSlices (s : SQLInfo) : Slices :=
  mkSlices [] []
           (if nonempty (KeyName s) then ["&o." +:+ KeyName s] else [])
           []
           (if nonempty (KeyField s) then [KeyField s] else [])
           [].

(** [s.Fields[k]]: a missing key reads as the empty string. *)
Definition column (s : SQLInfo) (k : string) : string :=
  default EmptyString (Fields s !! k).

(** One iteration of [for _, k := range s.Order]. *)
Definition orderStep (s : SQLInfo) (w : Slices) (k : string) : Slices :=
  if nonempty k then
    let v := column s k in
    mkSlices (w_names w ++ [dq +:+ k +:+ dq])
             (w_elem w ++ ["o." +:+ k])
             (w_ptr w ++ ["&o." +:+ k])
             (w_set w ++ [v +:+ "=?"])
             (w_sql w ++ [v])
             (if decide (v ∈ NoUpdate s) then w_insert_fields w
              else w_insert_fields w ++ [v])
  else w.

Definition slicesOf (s : SQLInfo) : Slices :=
  fold_left (orderStep s) (Order s) (initSlices s).

(** [elem] as [UpdateValues] sees it: the key member appended. *)
Definition updateElem (s : SQLInfo) : list string :=
  if nonempty (KeyName s) then w_elem (slicesOf s) ++ ["o." +:+ KeyName s]
  else w_elem (slicesOf s).

(** The texts of the [Printf] calls of [buildWrappers], in order. *)
Definition wrapperBlocks (s : SQLInfo) : list string :=
  let w := slicesOf s in
  [ generatorHeader (Name s);
    stringNewObj (Name s);
    interfaceHeader (Name s);
    stringInsertValues (Name s) (Join (w_elem w) ",");
    stringUpdateValues (Name s) (Join (updateElem s) ",");
    stringMemberPointers (Name s) (Join (w_ptr w) ",") ]
  ++ (if nonempty (KeyField s)
      then [ stringKey (Name s) (KeyName s); stringSetID (Name s) (KeyName s) ]
      else [ stringNoKey (Name s); stringNoSetID (Name s) ])
  ++ [ stringSQLGet (Name s) (Table s) (Join (w_sql w) ",") EmptyString;
       stringTableName (Name s) (Table s);
       stringSelectFields (Name s) (Join (w_sql w) ",");
       stringInsertFields (Name s) (Join (w_sql w) ",");
       stringKeyField (Name s) (KeyField s);
       stringKeyName (Name s) (KeyName s);
       stringNames (Name s) (Join (w_names w) ",");
       auditString (Name s) (UserField s) (TimeField s) ].

(** The slices after the loop, as maps over the members of [Order]. *)
Definition members (s : SQLInfo) : list string := List.filter nonempty (Order s).

Definition keyColumn (s : SQLInfo) : list string :=
  if nonempty (KeyField s) then [KeyField s] else [].

Definition keyPointer (s : SQLInfo) : list string :=
  if nonempty (KeyName s) then ["&o." +:+ KeyName s] else [].

(** The persisted members with their columns, as the accessors list them:
    the key first when there is one, then the members of [Order]. *)
Definition persisted (s : SQLInfo) : list (string * string) :=
  (if nonempty (KeyField s) then [(KeyName s, KeyField s)] else [])
  ++ map (fun k => (k, column s k)) (Order s).

(** The descriptor with another no-update set. *)
Definition set_NoUpdate (noUpdate : gset string) (i : SQLInfo) : SQLInfo :=
  mkSQLInfo (Name i) (Table i) (KeyName i) (KeyField i) (UserField i) (TimeField i)
            (Order i) (Fields i) noUpdate.

(** ** Scanning the declarations *)

(** The syntax tree as [ast.Inspect] walks it for [genDecl]: type
    specifications, struct types, and every other node.  A struct type
    holds its fields and, as children, the type expressions of these
    fields (where an anonymous struct type may sit). *)
#[warnings="-register-all"]
Inductive Node : Type :=
| TypeSpec (tname : string) (children : list Node)
| StructType (fields : list Field) (children : list Node)
| OtherNode (children : list Node).

Record File : Type := mkFile {
  file : option Node;            (* parsed AST, nil after a tolerated parse error *)
  TypeName : string;             (* name of the current type *)
  findName : string;             (* type name to match (if set) *)
  values : list SQLInfo          (* accumulator for sql annotated objects *)
}.

Record Generator : Type := mkGenerator {
  buf : string;                  (* accumulated output *)
  files : list File              (* g.pkg.files *)
}.

(** [g.Printf] with the text already formatted. *)
Definition Printf (b : string) (text : string) : string := b +:+ text.

Definition buildWrappers (s : SQLInfo) (b : string) : string :=
  fold_left Printf (wrapperBlocks s) b.

Section Scanner.

Variable Get : string -> string -> string.

(** [genDecl]: the answer tells [ast.Inspect] whether to descend. *)
Definition genDecl (f : File) (node : Node) : result (bool * File) :=
  match node with
  | TypeSpec tname _ =>
      mret (true, mkFile (file f) tname (findName f) (values f))
  | StructType fields _ =>
      if negb (nonempty (findName f)) || bool_decide (findName f = TypeName f) then
        tags ← sqlTags Get (TypeName f) fields;
        match tags with
        | Some tags =>
            mret (false, mkFile (file f) (TypeName f) (findName f)
                                (values f ++ [set_Name (TypeName f) tags]))
        | None => mret (false, f)
        end
      else mret (true, f)
  | OtherNode _ => mret (true, f)
  end.

(** [ast.Inspect(node, f.genDecl)], depth first.  The closing call on nil
    that follows the children of a node falls through the type switch of
    [genDecl] and changes nothing. *)
Fixpoint Inspect (node : Node) (f : File) : result File :=
  match genDecl f node with
  | Panic => Panic
  | Ok (false, f1) => Ok f1
  | Ok (true, f1) =>
      (fix walk (l : list Node) (f : File) : result File :=
         match l with
         | [] => Ok f
         | c :: l' =>
             match Inspect c f with
             | Ok f' => walk l' f'
             | Panic => Panic
             end
         end)
        (match node with
         | TypeSpec _ c => c
         | StructType _ c => c
         | OtherNode c => c
         end) f1
  end.

(** The body of the loop of [generate] for one file. *)
Definition generateFile (typeName : string) (b : string) (f : File)
  : result (string * File) :=
  let f := mkFile (file f) (TypeName f) typeName (values f) in
  match file f with
  | Some ast =>
      f' ← Inspect ast f;
      mret (fold_left (fun b v => buildWrappers v b) (values f') b, f')
  | None => mret (b, f)
  end.

Fixpoint generateFiles (typeName : string) (b : string) (fs : list File)
  : result (string * list File) :=
  match fs with
  | [] => mret (b, [])
  | f :: rest =>
      match generateFile typeName b f with
      | Panic => Panic
      | Ok (b1, f1) =>
          match generateFiles typeName b1 rest with
          | Panic => Panic
          | Ok (b2, rest') => Ok (b2, f1 :: rest')
          end
      end
  end.

(** [generate] produces the DBObject methods for the named type. *)
Definition generate (typeName : string) (g : Generator) : result Generator :=
  match generateFiles typeName (buf g) (files g) with
  | Panic => Panic
  | Ok (b, fs) => Ok (mkGenerator b fs)
  end.

(** The loop of [main] over the names of the [-type] flag. *)
Fixpoint generateNames (names : list string) (g : Generator) : result Generator :=
  match names with
  | [] => Ok g
  | typeName :: rest =>
      match generate typeName g with
      | Ok g' => generateNames rest g'
      | Panic => Panic
      end
  end.

Definition mainLoop (names : list string) (g : Generator) : result Generator :=
  match names with
  | [] => generate EmptyString g
  | _ :: _ => generateNames names g
  end.

End Scanner.

(** Two files hold the same source and the same accumulated state; the
    name to match, overwritten by [generate], may differ. *)
Definition sameSource (f1 f2 : File) : Prop :=
  file f1 = file f2 /\ TypeName f1 = TypeName f2 /\ values f1 = values f2.

(** Two runs agree: both panic, or both return, having appended the same
    text to their buffers and holding the same source afterwards. *)
Definition sameRun (g1 g2 : Generator) (r1 r2 : result Generator) : Prop :=
  match r1, r2 with
  | Ok g1', Ok g2' =>
      (exists out, buf g1' = buf g1 +:+ out /\ buf g2' = buf g2 +:+ out)
      /\ Forall2 sameSource (files g1') (files g2')
  | Panic, Panic => True
  | _, _ => False
  end.

(** A file as [parsePackage] creates it. *)
Definition newFile (ast : option Node) : File := mkFile ast EmptyString EmptyString [].


(** ** Reading a struct the way the specification words it *)

Section Reading.

Variable Get : string -> string -> string.

(** What the tag of a field yields for a key, the empty string for a
    field without tag. *)
Definition tagValue (field : Field) (key : string) : string :=
  match Tag field with
  | Some s =>
      match stripQuotes s with
      | Ok tag => Get tag key
      | Panic => EmptyString
      end
  | None => EmptyString
  end.

(** The field produces a non-empty [sql] value. *)
Definition hasSql (field : Field) : bool := nonempty (tagValue field "sql").

(** The field is taken as the key: it is persisted and its [key] value is
    not empty. *)
Definition isKey (field : Field) : bool :=
  hasSql field && nonempty (tagValue field "key").

(** The field is persisted as an ordinary column. *)
Definition isColumn (field : Field) : bool :=
  hasSql field && negb (nonempty (tagValue field "key")).

(** The field names the table: it is persisted and its [table] value is
    not empty. *)
Definition setsTable (field : Field) : bool :=
  hasSql field && nonempty (tagValue field "table").

(** The [update] value of the field parses as the boolean false. *)
Definition updateFalse (field : Field) : bool :=
  nonempty (tagValue field "update")
  && bool_decide (ParseBool (tagValue field "update") = Some false).

(** The field carries the audit role [role] (user or time). *)
Definition hasAudit (role : string) (field : Field) : bool :=
  bool_decide (tagValue field "audit" = role).

(** The member name [sqlTags] uses for a field. *)
Definition memberName (field : Field) : string := List.hd EmptyString (Names field).

(** A field [sqlTags] can always process: when it has a tag, it has a
    name too (it is not embedded) and the tag literal has both its
    delimiters. *)
Definition wellFormed (field : Field) : bool :=
  match Tag field with
  | None => true
  | Some s =>
      match Names field with [] => false | _ :: _ => true end
      && Nat.leb 2 (String.length s)
  end.

(** Identifiers are not empty. *)
Definition identsOk (field : Field) : bool := forallb nonempty (Names field).

(** A persisted field has a name. *)
Definition namedIfPersisted (field : Field) : bool :=
  negb (hasSql field) || match Names field with [] => false | _ :: _ => true end.

(** The members of the ordinary columns, in declaration order. *)
Definition columnMembers (fields : list Field) : list string :=
  map memberName (List.filter isColumn fields).

(** The table value of the last field that names the table, [init] when
    there is none. *)
Definition lastTable (init : string) (fields : list Field) : string :=
  List.last (map (fun f => tagValue f "table") (List.filter setsTable fields)) init.

(** The member and the column of the last field taken as the key. *)
Definition lastKey (init : string * string) (fields : list Field) : string * string :=
  List.last (map (fun f => (memberName f, tagValue f "sql")) (List.filter isKey fields))
            init.

(** The claim on the table as the specification words it: the value of the
    last field that carries a non-empty [table] value, persisted or not. *)
Definition lastTableAsStated (fields : list Field) : string :=
  List.last (List.filter nonempty (map (fun f => tagValue f "table") fields))
            EmptyString.

(** What one iteration of the loop of [sqlTags] does to the descriptor. *)
Definition stepSpec (info : SQLInfo) (good : bool) (f : Field)
                    (info' : SQLInfo) (good' : bool) : Prop :=
  good' = good || hasSql f
  ∧ Name info' = Name info
  ∧ Table info' = (if setsTable f then tagValue f "table" else Table info)
  ∧ KeyName info' = (if isKey f then memberName f else KeyName info)
  ∧ KeyField info' = (if isKey f then tagValue f "sql" else KeyField info)
  ∧ Order info' = Order info ++ (if isColumn f then [memberName f] else [])
  ∧ Fields info' = (if isColumn f then <[memberName f := tagValue f "sql"]> (Fields info)
                    else Fields info)
  ∧ UserField info' = (if hasAudit "user" f then memberName f else UserField info)
  ∧ TimeField info' = (if hasAudit "time" f then memberName f else TimeField info)
  ∧ NoUpdate info' = (if updateFalse f then {[memberName f]} ∪ NoUpdate info
                      else NoUpdate info)
  ∧ namedIfPersisted f = true.

(** Two fields that differ at most in their update value: the same names
    and the same value for each of the other keys [sqlTags] reads. *)
Definition sameButUpdate (f1 f2 : Field) : Prop :=
  Names f1 = Names f2
  /\ forall key : string,
      key ∈ ["sql"; "table"; "key"; "audit"] -> tagValue f1 key = tagValue f2 key.

(** Two descriptors agree but for their no-update sets. *)
Definition agree (i1 i2 : SQLInfo) : Prop :=
  set_NoUpdate ∅ i1 = set_NoUpdate ∅ i2.

End Reading.

(** ** Fixtures for the closed examples *)

(** One key:value pair of a tag, the value between quotes. *)
Definition kv (k v : string) : string := k +:+ ":" +:+ dq +:+ v +:+ dq.

(** A raw (back quoted) tag literal holding the given pairs. *)
Definition rawTag (pairs : list string) : string := "`" +:+ Join pairs " " +:+ "`".

(** A field with one name and a raw tag. *)
Definition tagged (n : string) (pairs : list string) : Field :=
  mkField [n] (Some (rawTag pairs)).

(** An embedded field with a raw tag. *)
Definition embedded (pairs : list string) : Field :=
  mkField [] (Some (rawTag pairs)).

(** The struct of the specification's example and the one of
    [struct_test.go] (three of its fields). *)
Definition exampleFields : list Field :=
  [ tagged "ID" [kv "sql" "id"; kv "key" "true"; kv "table" "t"];
    tagged "Name" [kv "sql" "name"] ].

Definition exampleInfo : SQLInfo :=
  mkSQLInfo "T" "t" "ID" "id" EmptyString EmptyString
            ["Name"] {["Name" := "name"]} ∅.

Definition testStruct : list Field :=
  [ tagged "ID" [kv "sql" "id"; kv "key" "true"; kv "table" "teststruct"];
    tagged "Name" [kv "sql" "name"];
    tagged "Created" [kv "sql" "created"; kv "update" "false"; kv "audit" "time"] ].

Definition testInfo : SQLInfo :=
  mkSQLInfo EmptyString "teststruct" "ID" "id" EmptyString "Created"
            ["Name"; "Created"]
            (<["Created" := "created"]> {["Name" := "name"]})
            {["Created"]}.

(** A key field that carries an update value parsing as false. *)
Definition keyNoUpdate : Field :=
  tagged "ID" [kv "sql" "id"; kv "key" "true"; kv "update" "false"].

Definition keyNoUpdateInfo : SQLInfo :=
  mkSQLInfo EmptyString EmptyString "ID" "id" EmptyString EmptyString [] ∅ {["ID"]}.

(** A field without sql value that carries an audit role and an update
    value, after a persisted field. *)
Definition auditOnly : Field :=
  tagged "Modified" [kv "audit" "time"; kv "update" "false"].

Definition auditOnlyFields : list Field := [tagged "A" [kv "sql" "a"]; auditOnly].

Definition auditOnlyInfo : SQLInfo :=
  mkSQLInfo EmptyString EmptyString EmptyString EmptyString EmptyString "Modified"
            ["A"] {["A" := "a"]} {["Modified"]}.

(** Two fields with a table value, the second one without sql value. *)
Definition twoTables : list Field :=
  [ tagged "A" [kv "sql" "a"; kv "table" "t1"]; tagged "B" [kv "table" "t2"] ].

Definition twoTablesInfo : SQLInfo :=
  mkSQLInfo EmptyString "t1" EmptyString EmptyString EmptyString EmptyString
            ["A"] {["A" := "a"]} ∅.

(** The file that declares the struct of [struct_test.go], held by a fresh
    generator and by one that has text and a stale name to match. *)
Definition testFile : Node :=
  OtherNode [TypeSpec "testStruct" [StructType testStruct []]].

Definition freshGenerator : Generator :=
  mkGenerator EmptyString [newFile (Some testFile)].

Definition usedGenerator : Generator :=
  mkGenerator "package main" [mkFile (Some testFile) EmptyString "other" []].

(** A struct whose only field is embedded and carries an audit role but no
    sql value: [type T struct { time.Time `audit:...` }] with the role
    time. *)
Definition embeddedAudit : list Field := [embedded [kv "audit" "time"]].

Definition embeddedAuditFile : Node :=
  OtherNode [TypeSpec "T" [StructType embeddedAudit []]].

(** Two structs that differ in one update value only, carried by an
    embedded field. *)
Definition embeddedUpdate (value : string) : list Field :=
  [tagged "A" [kv "sql" "a"]; embedded [kv "update" value]].

Definition embeddedUpdateFile (value : string) : Node :=
  OtherNode [TypeSpec "T" [StructType (embeddedUpdate value) []]].

Definition embeddedUpdateInfo : SQLInfo :=
  mkSQLInfo "T" EmptyString EmptyString EmptyString EmptyString EmptyString
            ["A"] {["A" := "a"]} ∅.

(** * The rest of the generator and the run time that calls its output *)

(** ** More readings of a struct *)

Section ReadingMore.

Variable Get : string -> string -> string.

(** The field makes [sqlTags] panic: its tag literal lacks a delimiter, or
    it is embedded and one of the three blocks reads its name. *)
Definition fieldPanics (field : Field) : bool :=
  match Tag field with
  | None => false
  | Some s =>
      if Nat.leb 2 (String.length s) then
        match Names field with
        | [] => hasSql Get field || hasAudit Get "user" field
                || hasAudit Get "time" field || updateFalse Get field
        | _ :: _ => false
        end
      else true
  end.

(** The member of the last field that carries the audit role, [init] when
    there is none. *)
Definition lastAudit (role init : string) (fields : list Field) : string :=
  List.last (map memberName (List.filter (hasAudit Get role) fields)) init.

(** The sql values of the ordinary columns, in declaration order. *)
Definition columnValues (fields : list Field) : list string :=
  map (fun f => tagValue Get f "sql") (List.filter (isColumn Get) fields).

End ReadingMore.

(** ** The walk over the declarations, named *)

(** The children [ast.Inspect] visits below a node. *)
Definition childNodes (n : Node) : list Node :=
  match n with
  | TypeSpec _ c => c
  | StructType _ c => c
  | OtherNode c => c
  end.

Section ScannerMore.

Variable Get : string -> string -> string.

(** The loop of [Inspect] over the children of a node. *)
Fixpoint inspectList (l : list Node) (f : File) : result File :=
  match l with
  | [] => Ok f
  | c :: l' =>
      match Inspect Get c f with
      | Ok f' => inspectList l' f'
      | Panic => Panic
      end
  end.

End ScannerMore.

(** Some type specification of the tree declares the name. *)
Fixpoint declares (t : string) (n : Node) : bool :=
  match n with
  | TypeSpec tname c => bool_decide (tname = t) || existsb (declares t) c
  | StructType _ c => existsb (declares t) c
  | OtherNode c => existsb (declares t) c
  end.

(** What [generate] may do to a file: the tree stays, the name to match
    becomes [typeName], descriptors are appended. *)
Definition grownFrom (typeName : string) (f f' : File) : Prop :=
  file f' = file f /\ findName f' = typeName
  /\ exists new, values f' = values f ++ new.

(** The same, the appended descriptors carrying the type name. *)
Definition grownWith (typeName : string) (f f' : File) : Prop :=
  exists new, values f' = values f ++ new
              /\ Forall (fun s => Name s = typeName) new.

(** What the walk may do to a file: the tree and the name to match stay,
    descriptors are appended, and under a name to match they carry it. *)
Definition grows (f f' : File) : Prop :=
  file f' = file f /\ findName f' = findName f
  /\ exists new, values f' = values f ++ new
     /\ (nonempty (findName f) = true ->
         Forall (fun s => Name s = findName f) new).

(** The text [generate] prints for a list of descriptors. *)
Definition blocksText (vs : list SQLInfo) : string :=
  fold_left (fun b v => buildWrappers v b) vs EmptyString.

(** A file in which the walk finds nothing for the type name: no
    descriptor yet, and neither the current type nor a type specification
    of the tree has the name. *)
Definition knowsNot (typeName : string) (f : File) : Prop :=
  values f = [] /\ TypeName f <> typeName
  /\ match file f with Some ast => declares typeName ast = false | None => True end.

(** ** Splitting, place holders and the loop of [main] *)

(** [strings.Split(s, sep)] for a separator of one byte, the only use the
    repository makes of it (the comma). *)
Fixpoint Split (s : string) (sep : ascii) : list string :=
  match s with
  | EmptyString => [EmptyString]
  | String c rest =>
      if Ascii.eqb c sep then EmptyString :: Split rest sep
      else match Split rest sep with
           | x :: xs => String c x :: xs
           | [] => [String c EmptyString]
           end
  end.

Definition comma : ascii := ascii_of_nat 44.

(** The string holds the byte. *)
Fixpoint hasByte (c : ascii) (s : string) : bool :=
  match s with
  | EmptyString => false
  | String d rest => Ascii.eqb d c || hasByte c rest
  end.

(** [Placeholders] of the generator and [placeholders] of the run time:
    [n] question marks joined by commas.  The argument is a length, never
    negative. *)
Definition Placeholders (n : nat) : string := Join (repeat "?" n) ",".

(** The header [main] prints before it generates. *)
Definition mainHeader (args : list string) (pkgName : string) : string :=
  ("// generated by 'dbgen " +:+ Join args " " +:+ "'; DO NOT EDIT" +:+ nl)
  +:+ (nl +:+ "package " +:+ pkgName +:+ nl)
  +:+ (nl +:+ nl +:+ "import (" +:+ nl +:+ tab +:+ dq +:+ "time" +:+ dq +:+ nl
       +:+ ")" +:+ nl +:+ nl).

Section MainMore.

Variable Get : string -> string -> string.

(** [main] between the parsing of the package and the formatting of the
    buffer: the header, then [generate] for the names of the [-type]
    flag. *)
Definition mainGenerate (args : list string) (pkgName typeNames : string)
           (g : Generator) : result Generator :=
  let names := Split typeNames comma in
  let g := mkGenerator (Printf (buf g) (mainHeader args pkgName)) (files g) in
  mainLoop Get names g.

End MainMore.

(** * The run time that calls the generated methods *)

Section RunTime.

(** Go values held in an [interface{}]. *)
Variable V : Type.

(** A [DBObject], seen through the accessors the query builders call;
    each holds what the method returns. *)
Record DBObject : Type := mkDBObject {
  o_TableName : string;
  o_KeyField : string;
  o_SelectFields : string;
  o_InsertFields : string;
  o_InsertValues : list V;
  o_UpdateValues : list V
}.

(** [insertFields]: the insert columns of the object without its key
    column. *)
Definition insertFields (o : DBObject) : string :=
  let list := Split (o_InsertFields o) comma in
  let keep := List.filter (fun p => negb (String.eqb p (o_KeyField o))) list in
  Join keep ",".

(** [setParams]. *)
Definition setParams (params : string) : string :=
  let list := Split params comma in
  Join (map (fun p => p +:+ "=?") list) ",".

Definition insertQuery (o : DBObject) : string :=
  let p := Placeholders (List.length (o_InsertValues o)) in
  "insert into " +:+ o_TableName o +:+ " (" +:+ insertFields o +:+ ") values("
  +:+ p +:+ ")".

Definition replaceQuery (o : DBObject) : string :=
  let p := Placeholders (List.length (o_InsertValues o)) in
  "replace into " +:+ o_TableName o +:+ " (" +:+ insertFields o +:+ ") values("
  +:+ p +:+ ")".

Definition updateQuery (o : DBObject) : string :=
  "update " +:+ o_TableName o +:+ " set " +:+ setParams (insertFields o)
  +:+ " where " +:+ o_KeyField o +:+ "=?".

Definition deleteQuery (o : DBObject) : string :=
  "delete from " +:+ o_TableName o +:+ " where " +:+ o_KeyField o +:+ "=?".

(** The object the generated methods of a descriptor implement, for a
    struct value whose member [m] holds [value m]: each accessor returns
    the text, or the values of the members, that [buildWrappers] printed
    into its body. *)
Definition generatedObject (s : SQLInfo) (value : string -> V) : DBObject :=
  mkDBObject (Table s) (KeyField s)
             (Join (w_sql (slicesOf s)) ",")
             (Join (w_sql (slicesOf s)) ",")
             (map value (members s))
             (map value (members s ++ (if nonempty (KeyName s) then [KeyName s] else []))).

(** A column is plain: it holds no comma. *)
Definition plainColumn (c : string) : bool := negb (hasByte comma c).

End RunTime.

Arguments mkDBObject {V} _ _ _ _ _ _.
Arguments o_TableName {V} _.
Arguments o_KeyField {V} _.
Arguments o_SelectFields {V} _.
Arguments o_InsertFields {V} _.
Arguments o_InsertValues {V} _.
Arguments o_UpdateValues {V} _.
Arguments insertFields {V} _.
Arguments insertQuery {V} _.
Arguments replaceQuery {V} _.
Arguments updateQuery {V} _.
Arguments deleteQuery {V} _.
Arguments generatedObject {V} _ _.

(** * The run time that reads the tags by reflection *)

Section Reflection.

(** [reflect.StructTag.Get] on the tag of a struct field. *)
Variable Get : string -> string -> string.

Variable V : Type.

(** The value is an [int] or an [int64], and which. *)
Variable asInt : V -> option Z.

(** A field of a struct value under reflection: its tag and what it
    holds. *)
Record StructField : Type := mkStructField {
  sf_Tag : string;
  sf_Value : V
}.

(** [keyIsSet]. *)
Fixpoint keyIsSet (obj : list StructField) : bool :=
  match obj with
  | [] => false
  | f :: rest =>
      if String.eqb (Get (sf_Tag f) "key") "true" then
        match asInt (sf_Value f) with
        | Some v => Z.ltb 0 v
        | None => false
        end
      else keyIsSet rest
  end.

(** One iteration of the loop of [dbFields]; the state is [table], [key]
    and [list]. *)
Definition dbFieldsStep (skipKey : bool) (st : string * string * list string)
           (f : StructField) : string * string * list string :=
  let '(table, key, list) := st in
  let isTable := Get (sf_Tag f) "table" in
  let table := if nonempty isTable then isTable else table in
  let k := Get (sf_Tag f) "sql" in
  if String.eqb (Get (sf_Tag f) "key") "true" then
    if skipKey then (table, k, list)
    else (table, k, if nonempty k then list ++ [k] else list)
  else (table, key, if nonempty k then list ++ [k] else list).

Definition dbFieldsLoop (obj : list StructField) (skipKey : bool)
  : string * string * list string :=
  fold_left (dbFieldsStep skipKey) obj (EmptyString, EmptyString, []).

(** [dbFields]: the table, the key column and the joined columns. *)
Definition dbFields (obj : list StructField) (skipKey : bool)
  : string * string * string :=
  let '(table, key, list) := dbFieldsLoop obj skipKey in
  (table, key, Join list ",").

(** One iteration of the loop of [objFields]; the state is [key] (nil at
    first) and [a]. *)
Definition objFieldsStep (skipKey : bool) (st : option V * list V)
           (f : StructField) : option V * list V :=
  let '(key, a) := st in
  if negb (nonempty (Get (sf_Tag f) "sql")) then st
  else if String.eqb (Get (sf_Tag f) "key") "true" then
    if skipKey then (Some (sf_Value f), a)
    else (Some (sf_Value f), a ++ [sf_Value f])
  else (key, a ++ [sf_Value f]).

Definition objFields (obj : list StructField) (skipKey : bool) : option V * list V :=
  fold_left (objFieldsStep skipKey) obj (None, []).

(** [ObjectInsert] up to the call of the data base: the statement and its
    arguments, [None] for the error of the missing table. *)
Definition objectInsertStatement (obj : list StructField) : option (string * list V) :=
  let skip := negb (keyIsSet obj) in
  let a := (objFields obj skip).2 in
  let '(table, _, fields) := dbFields obj skip in
  if negb (nonempty table) then None
  else Some ("insert into " +:+ table +:+ " (" +:+ fields +:+ ") values ("
             +:+ Placeholders (List.length a) +:+ ")", a).

(** One iteration of the loop of [ObjectUpdate]; the state is [table],
    [key], [id] (nil at first), [list] and [args]. *)
Definition objectUpdateStep
           (st : string * string * option V * list string * list V)
           (f : StructField) : string * string * option V * list string * list V :=
  let '(table, key, id, list, args) := st in
  let isTable := Get (sf_Tag f) "table" in
  let table := if nonempty isTable then isTable else table in
  if negb (nonempty (Get (sf_Tag f) "sql")) then (table, key, id, list, args)
  else if String.eqb (Get (sf_Tag f) "update") "false" then (table, key, id, list, args)
  else
    let k := Get (sf_Tag f) "sql" in
    let v := sf_Value f in
    if String.eqb (Get (sf_Tag f) "key") "true" then (table, k, Some v, list, args)
    else (table, key, id, list ++ [k +:+ "=?"], args ++ [v]).

(** [ObjectUpdate] up to the call of the data base: [None] is
    [ErrNoKeyField]; an argument is [None] when it is the nil interface. *)
Definition objectUpdateStatement (obj : list StructField)
  : option (string * list (option V)) :=
  let '(table, key, id, list, args) :=
    fold_left objectUpdateStep obj (EmptyString, EmptyString, None, [], []) in
  if negb (nonempty key) then None
  else Some ("update " +:+ table +:+ " set " +:+ Join list "," +:+ " where "
             +:+ key +:+ "=?", map Some args ++ [id]).

(** One iteration of the loop of [createQuery]; the state is [table] and
    [list]. *)
Definition createQueryStep (skipKey : bool) (st : string * list string)
           (f : StructField) : string * list string :=
  let '(table, list) := st in
  if negb (nonempty (Get (sf_Tag f) "sql")) then st
  else
    let name := Get (sf_Tag f) "table" in
    let table := if nonempty name then name else table in
    if skipKey && String.eqb (Get (sf_Tag f) "key") "true" then (table, list)
    else (table, list ++ [Get (sf_Tag f) "sql"]).

(** [createQuery]; [typeName] is [t.Name()]. *)
Definition createQuery (typeName : string) (obj : list StructField) (skipKey : bool)
  : string :=
  let '(table, list) := fold_left (createQueryStep skipKey) obj (EmptyString, []) in
  if negb (nonempty table)
  then "error: no table name specified for object:" +:+ typeName
  else "select " +:+ Join list "," +:+ " from " +:+ table.

(** [sPtrs]: the pointer to the field of index [i] is [i]. *)
Fixpoint sPtrsFrom (i : nat) (obj : list StructField) : list nat :=
  match obj with
  | [] => []
  | f :: rest =>
      if nonempty (Get (sf_Tag f) "sql") then i :: sPtrsFrom (S i) rest
      else sPtrsFrom (S i) rest
  end.

Definition sPtrs (obj : list StructField) : list nat := sPtrsFrom 0 obj.

(** The sql value and the table value of a field. *)
Definition sqlOf (f : StructField) : string := Get (sf_Tag f) "sql".
Definition tableOf (f : StructField) : string := Get (sf_Tag f) "table".

(** The fields [ObjectInsert] writes: those with a sql value, the field
    whose key value is true left out when the key is skipped. *)
Definition inserted (skipKey : bool) (f : StructField) : bool :=
  nonempty (Get (sf_Tag f) "sql")
  && negb (skipKey && String.eqb (Get (sf_Tag f) "key") "true").

(** The fields [ObjectUpdate] reads: those with a sql value whose update
    value is not false; among them the key fields and the others. *)
Definition updatable (f : StructField) : bool :=
  nonempty (Get (sf_Tag f) "sql")
  && negb (String.eqb (Get (sf_Tag f) "update") "false").

Definition updateKey (f : StructField) : bool :=
  updatable f && String.eqb (Get (sf_Tag f) "key") "true".

Definition updateColumn (f : StructField) : bool :=
  updatable f && negb (String.eqb (Get (sf_Tag f) "key") "true").

(** The table tag of the last field that has one, among the fields with a
    sql value. *)
Definition lastTableOfColumns (obj : list StructField) : string :=
  List.last
    (List.filter nonempty
       (map tableOf (List.filter (fun f => nonempty (sqlOf f)) obj)))
    EmptyString.

(** The table tag of the last field that has one. *)
Definition lastTableTag (obj : list StructField) : string :=
  List.last (List.filter nonempty (map tableOf obj)) EmptyString.

End Reflection.

Arguments mkStructField {V} _ _.
Arguments sf_Tag {V} _.
Arguments sf_Value {V} _.

(** ** Fixtures for the further properties *)

(** The descriptor of the example of the specification as [sqlTags]
    returns it, the name not yet set. *)
Definition exampleParsed : SQLInfo := set_Name EmptyString exampleInfo.

Definition testNamed : SQLInfo := set_Name "testStruct" testInfo.

(** The generator of [struct_test.go] after [generate] for its type, and
    after a second call for a type the file does not declare. *)
Definition testGenerated : Generator :=
  mkGenerator (buildWrappers testNamed EmptyString)
              [mkFile (Some testFile) "testStruct" "testStruct" [testNamed]].

Definition testGeneratedTwice : Generator :=
  mkGenerator (buildWrappers testNamed (buildWrappers testNamed EmptyString))
              [mkFile (Some testFile) "testStruct" "other" [testNamed]].

(** An object as the generated methods of the example give it, holding
    the name 7. *)
Definition exampleObject : DBObject nat :=
  mkDBObject "t" "id" "id,name" "id,name" [7] [7; 1].

(** * Properties *)

(** ** The model at work *)

(** The accessor on the tag of the key field of [struct_test.go]. *)
Example Get_sql :
  StructTag_Get (Join [kv "sql" "id"; kv "key" "true"; kv "table" "teststruct"] " ")
                "table" = "teststruct".
Proof. reflexivity. Qed.

Example Get_missing : StructTag_Get (kv "sql" "id") "key" = EmptyString.
Proof. reflexivity. Qed.

Example ParseBool_values :
  ParseBool "false" = Some false /\ ParseBool "T" = Some true
  /\ ParseBool "no" = None /\ ParseBool EmptyString = None.
Proof. by vm_compute. Qed.

(** The example of the specification: table t, key id, one column. *)
Example genDecl_example :
  genDecl StructTag_Get (mkFile None "T" EmptyString []) (StructType exampleFields [])
  = Ok (false, mkFile None "T" EmptyString [exampleInfo]).
Proof. by vm_compute. Qed.

Example example_TableName :
  stringTableName "T" "t" ∈ wrapperBlocks exampleInfo
  /\ stringKeyField "T" "id" ∈ wrapperBlocks exampleInfo
  /\ stringSelectFields "T" "id,name" ∈ wrapperBlocks exampleInfo.
Proof. repeat split; apply (bool_decide_unpack _); by vm_compute. Qed.

Example sqlTags_testStruct :
  sqlTags StructTag_Get "testStruct" testStruct = Ok (Some testInfo).
Proof. by vm_compute. Qed.

(** A second type name makes [generate] print the blocks of the first
    type again: the accumulator of the file is never reset. *)
Example generate_twice :
  exists g1 g2,
    generate StructTag_Get "testStruct" freshGenerator = Ok g1
    /\ generate StructTag_Get "other" g1 = Ok g2
    /\ buf g2 = buf g1 +:+ buf g1.
Proof. do 2 eexists. repeat split; by vm_compute. Qed.

(** ** Strings and loops *)

Lemma last_cons {A : Type} (x : A) (l : list A) (d : A) :
  List.last (x :: l) d = List.last l x.
Proof.
  revert x d. induction l as [|y l IH]; intros x d; [done|].
  change (List.last (y :: l) d = List.last (y :: l) x). by rewrite !IH.
Qed.

Lemma append_assoc (a b c : string) : (a +:+ b) +:+ c = a +:+ (b +:+ c).
Proof.
  induction a as [|ch a IH]; [reflexivity|].
  change (String ch ((a +:+ b) +:+ c) = String ch (a +:+ (b +:+ c))).
  by rewrite IH.
Qed.

Lemma append_empty_r (a : string) : a +:+ EmptyString = a.
Proof.
  induction a as [|ch a IH]; [reflexivity|].
  change (String ch (a +:+ EmptyString) = String ch a).
  by rewrite IH.
Qed.

Lemma fold_orderStep (s : SQLInfo) (l : list string) (w : Slices) :
  let w' := fold_left (orderStep s) l w in
  let ks := List.filter nonempty l in
  w_names w' = w_names w ++ map (fun k => dq +:+ k +:+ dq) ks
  ∧ w_elem w' = w_elem w ++ map (String.append "o.") ks
  ∧ w_ptr w' = w_ptr w ++ map (String.append "&o.") ks
  ∧ w_set w' = w_set w ++ map (fun k => column s k +:+ "=?") ks
  ∧ w_sql w' = w_sql w ++ map (column s) ks.
Proof.
  revert w. induction l as [|k l IH]; intros w; cbn -[orderStep].
  - by rewrite !app_nil_r.
  - destruct (IH (orderStep s w k)) as (Hn & He & Hp & Hs & Hq).
    rewrite Hn, He, Hp, Hs, Hq. unfold orderStep.
    destruct (nonempty k); cbn; [|done].
    by rewrite <- !app_assoc.
Qed.

Lemma slicesOf_sql (s : SQLInfo) :
  w_sql (slicesOf s) = keyColumn s ++ map (column s) (members s).
Proof. apply (fold_orderStep s (Order s) (initSlices s)). Qed.

Lemma slicesOf_ptr (s : SQLInfo) :
  w_ptr (slicesOf s) = keyPointer s ++ map (String.append "&o.") (members s).
Proof. apply (fold_orderStep s (Order s) (initSlices s)). Qed.

Lemma slicesOf_elem (s : SQLInfo) :
  w_elem (slicesOf s) = map (String.append "o.") (members s).
Proof. apply (fold_orderStep s (Order s) (initSlices s)). Qed.

Lemma slicesOf_names (s : SQLInfo) :
  w_names (slicesOf s) = map (fun k => dq +:+ k +:+ dq) (members s).
Proof. apply (fold_orderStep s (Order s) (initSlices s)). Qed.

(** Membership in the emitted blocks, one lemma per accessor. *)
Lemma block_InsertValues (s : SQLInfo) :
  stringInsertValues (Name s) (Join (w_elem (slicesOf s)) ",") ∈ wrapperBlocks s.
Proof. unfold wrapperBlocks. set_solver. Qed.

Lemma block_UpdateValues (s : SQLInfo) :
  stringUpdateValues (Name s) (Join (updateElem s) ",") ∈ wrapperBlocks s.
Proof. unfold wrapperBlocks. set_solver. Qed.

Lemma block_MemberPointers (s : SQLInfo) :
  stringMemberPointers (Name s) (Join (w_ptr (slicesOf s)) ",") ∈ wrapperBlocks s.
Proof. unfold wrapperBlocks. set_solver. Qed.

Lemma block_SelectFields (s : SQLInfo) :
  stringSelectFields (Name s) (Join (w_sql (slicesOf s)) ",") ∈ wrapperBlocks s.
Proof. unfold wrapperBlocks. set_solver. Qed.

Lemma block_InsertFields (s : SQLInfo) :
  stringInsertFields (Name s) (Join (w_sql (slicesOf s)) ",") ∈ wrapperBlocks s.
Proof. unfold wrapperBlocks. set_solver. Qed.

Lemma block_TableName (s : SQLInfo) :
  stringTableName (Name s) (Table s) ∈ wrapperBlocks s.
Proof. unfold wrapperBlocks. set_solver. Qed.

(** ** The tag parser, one field at a time *)

Section TagParserFacts.

Variable Get : string -> string -> string.

Ltac crush_step :=
  repeat first
    [ progress simplify_eq/=
    | case_match
    | case_decide
    | case_bool_decide ].

(** Whenever an iteration returns, it has done what [stepSpec] says. *)
Lemma sqlTagsField_spec (info : SQLInfo) (good : bool) (f : Field)
      (info' : SQLInfo) (good' : bool) :
  sqlTagsField Get (info, good) f = Ok (info', good') ->
  stepSpec Get info good f info' good'.
Proof.
  unfold sqlTagsField, stepSpec, sqlBlock, auditBlock, updateBlock,
    namedIfPersisted, isKey, isColumn, setsTable, hasSql, updateFalse, hasAudit,
    tagValue, memberName, firstName, mbind, mret, result_bind, result_ret.
  destruct f as [ns t]; cbn.
  destruct t as [s|]; [|intros; simplify_eq; rewrite app_nil_r, orb_false_r; done].
  destruct (stripQuotes s) as [tag|]; [|done].
  intros H.
  destruct ns as [|n ns]; cbn in *.
  all: destruct (nonempty (Get tag "sql")) eqn:Hsql; cbn in *; try done.
  all: destruct (nonempty (Get tag "audit")) eqn:Haud; cbn in *.
  all: crush_step.
  all: rewrite ?app_nil_r, ?orb_false_r, ?orb_true_r; repeat split; try done.
  all: try congruence.
  all: match goal with H : Get _ _ = _ |- _ => by rewrite H in * end.
Qed.

Local Tactic Notation "step_spec" hyp(H) "as" simple_intropattern(p) :=
  apply sqlTagsField_spec in H; unfold stepSpec in H; destruct H as p.

(** A well formed field never makes the iteration panic. *)
Lemma sqlTagsField_wellFormed (st : SQLInfo * bool) (f : Field) :
  wellFormed f = true -> exists st', sqlTagsField Get st f = Ok st'.
Proof.
  unfold wellFormed, sqlTagsField, stripQuotes, sqlBlock, auditBlock,
    updateBlock, firstName, mbind, mret, result_bind, result_ret.
  destruct f as [[|n ns] [s|]]; cbn; try done; [by eauto| |by eauto].
  intros ->. repeat (case_match || case_decide); eauto.
Qed.

Lemma sqlTagsLoop_wellFormed (fields : list Field) (st : SQLInfo * bool) :
  forallb wellFormed fields = true -> exists st', sqlTagsLoop Get st fields = Ok st'.
Proof.
  revert st. induction fields as [|f fields IH]; intros st; cbn; [by eauto|].
  intros [Hf Hrest]%andb_prop.
  destruct (sqlTagsField_wellFormed st f Hf) as [st1 ->]. cbn. by apply IH.
Qed.

(** ** The tag parser, the whole loop *)

(** The loop splits at its first iteration. *)
Lemma sqlTagsLoop_cons (st st' : SQLInfo * bool) (f : Field) (fields : list Field) :
  sqlTagsLoop Get st (f :: fields) = Ok st' ->
  exists st1, sqlTagsField Get st f = Ok st1 /\ sqlTagsLoop Get st1 fields = Ok st'.
Proof. cbn. destruct (sqlTagsField Get st f) as [st1|]; [by eauto|done]. Qed.

Local Ltac loop_nil H :=
  change (sqlTagsLoop Get ?st []) with (Ok st) in H; simplify_eq.

Lemma sqlTagsLoop_good fields info good info' good' :
  sqlTagsLoop Get (info, good) fields = Ok (info', good') ->
  good' = good || existsb (hasSql Get) fields.
Proof.
  revert info good. induction fields as [|f fields IH]; intros info good H.
  - loop_nil H. cbn. by rewrite orb_false_r.
  - apply sqlTagsLoop_cons in H as ([i1 g1] & H1 & H2).
    step_spec H1 as (-> & _). apply IH in H2 as ->.
    cbn. by rewrite orb_assoc.
Qed.

Lemma sqlTagsLoop_Name fields info good info' good' :
  sqlTagsLoop Get (info, good) fields = Ok (info', good') -> Name info' = Name info.
Proof.
  revert info good. induction fields as [|f fields IH]; intros info good H.
  - by loop_nil H.
  - apply sqlTagsLoop_cons in H as ([i1 g1] & H1 & H2).
    step_spec H1 as (_ & Hn & _). apply IH in H2. congruence.
Qed.

Lemma sqlTagsLoop_Table fields info good info' good' :
  sqlTagsLoop Get (info, good) fields = Ok (info', good') ->
  Table info' = lastTable Get (Table info) fields.
Proof.
  revert info good. induction fields as [|f fields IH]; intros info good H.
  - by loop_nil H.
  - apply sqlTagsLoop_cons in H as ([i1 g1] & H1 & H2).
    step_spec H1 as (_ & _ & Ht & _). apply IH in H2.
    rewrite H2, Ht. unfold lastTable. cbn [List.filter].
    destruct (setsTable Get f); [|done]. cbn [map]. by rewrite last_cons.
Qed.

Lemma sqlTagsLoop_Key fields info good info' good' :
  sqlTagsLoop Get (info, good) fields = Ok (info', good') ->
  (KeyName info', KeyField info') = lastKey Get (KeyName info, KeyField info) fields.
Proof.
  revert info good. induction fields as [|f fields IH]; intros info good H.
  - by loop_nil H.
  - apply sqlTagsLoop_cons in H as ([i1 g1] & H1 & H2).
    step_spec H1 as (_ & _ & _ & Hk & Hf & _). apply IH in H2.
    rewrite H2, Hk, Hf. unfold lastKey. cbn [List.filter].
    destruct (isKey Get f); [|done]. cbn [map]. by rewrite last_cons.
Qed.

Lemma sqlTagsLoop_Order fields info good info' good' :
  sqlTagsLoop Get (info, good) fields = Ok (info', good') ->
  Order info' = Order info ++ columnMembers Get fields.
Proof.
  revert info good. induction fields as [|f fields IH]; intros info good H.
  - loop_nil H. by rewrite app_nil_r.
  - apply sqlTagsLoop_cons in H as ([i1 g1] & H1 & H2).
    step_spec H1 as (_ & _ & _ & _ & _ & Ho & _). apply IH in H2.
    rewrite H2, Ho. unfold columnMembers. cbn.
    destruct (isColumn Get f); cbn; by rewrite <- app_assoc.
Qed.

Lemma sqlTagsLoop_NoUpdate fields info good info' good' (n : string) :
  sqlTagsLoop Get (info, good) fields = Ok (info', good') ->
  n ∈ NoUpdate info' <->
  n ∈ NoUpdate info \/
  exists f, f ∈ fields /\ updateFalse Get f = true /\ memberName f = n.
Proof.
  revert info good. induction fields as [|f fields IH]; intros info good H.
  - loop_nil H. split; [by left|]. intros [?|(f & Hf & _)]; [done|].
    by apply elem_of_nil in Hf.
  - apply sqlTagsLoop_cons in H as ([i1 g1] & H1 & H2).
    step_spec H1 as (_ & _ & _ & _ & _ & _ & _ & _ & _ & Hu & _).
    rewrite (IH _ _ H2), Hu. split.
    + intros [Hin|(f' & Hf' & Hup & Hn)].
      * destruct (updateFalse Get f) eqn:E; [|by left].
        apply elem_of_union in Hin as [->%elem_of_singleton|?]; [|by left].
        right. exists f. split; [apply elem_of_cons; by left|done].
      * right. exists f'. split; [apply elem_of_cons; by right|done].
    + intros [Hin|(f' & Hf' & Hup & Hn)].
      * left. destruct (updateFalse Get f); [apply elem_of_union; by right|done].
      * apply elem_of_cons in Hf' as [->|Hf'].
        -- left. rewrite Hup. apply elem_of_union. left. by apply elem_of_singleton.
        -- right. by exists f'.
Qed.

(** A loop that returns has found a name on every persisted field. *)
Lemma sqlTagsLoop_named fields info good info' good' :
  sqlTagsLoop Get (info, good) fields = Ok (info', good') ->
  forallb (namedIfPersisted Get) fields = true.
Proof.
  revert info good. induction fields as [|f fields IH]; intros info good H; [done|].
  apply sqlTagsLoop_cons in H as ([i1 g1] & H1 & H2).
  step_spec H1 as (_ & _ & _ & _ & _ & _ & _ & _ & _ & _ & Hn).
  cbn. rewrite Hn. by apply IH in H2.
Qed.

Lemma memberName_nonempty (f : Field) :
  hasSql Get f = true -> namedIfPersisted Get f = true -> identsOk f = true ->
  nonempty (memberName f) = true.
Proof.
  unfold namedIfPersisted, identsOk, memberName. intros ->. cbn.
  destruct (Names f) as [|n ns]; [done|]. cbn. by intros _ [-> _]%andb_prop.
Qed.

(** The key member and the key column are set together: with identifiers
    that are not empty, one is empty exactly when the other is. *)
Lemma lastKey_nonempty fields (k : string * string) :
  forallb (namedIfPersisted Get) fields = true ->
  forallb identsOk fields = true ->
  nonempty k.1 = nonempty k.2 ->
  nonempty (lastKey Get k fields).1 = nonempty (lastKey Get k fields).2.
Proof.
  revert k. induction fields as [|f fields IH]; intros k Hn Hid Hk; [done|].
  cbn in Hn, Hid. apply andb_prop in Hn as [Hn1 Hn2].
  apply andb_prop in Hid as [Hid1 Hid2].
  unfold lastKey. cbn [List.filter]. destruct (isKey Get f) eqn:E; [|by apply IH].
  cbn [map]. rewrite last_cons.
  apply (IH (memberName f, tagValue Get f "sql")); [done..|].
  cbn. unfold isKey in E. apply andb_prop in E as [Hsql _].
  rewrite (memberName_nonempty f Hsql Hn1 Hid1). symmetry. exact Hsql.
Qed.

Lemma columnMembers_nonempty (fields : list Field) :
  forallb (namedIfPersisted Get) fields = true ->
  forallb identsOk fields = true ->
  List.filter nonempty (columnMembers Get fields) = columnMembers Get fields.
Proof.
  induction fields as [|f fields IH]; [done|]. cbn [forallb].
  intros [Hn1 Hn2]%andb_prop [Hid1 Hid2]%andb_prop.
  unfold columnMembers in *. cbn [List.filter].
  destruct (isColumn Get f) eqn:E; [|by apply IH]. cbn [map List.filter].
  unfold isColumn in E. apply andb_prop in E as [Hsql _].
  rewrite (memberName_nonempty f Hsql Hn1 Hid1). f_equal. by apply IH.
Qed.

End TagParserFacts.

(** ** The synthesizer never reads the no-update set *)

Lemma updateElem_members (s : SQLInfo) :
  updateElem s =
  map (String.append "o.") (members s)
  ++ (if nonempty (KeyName s) then ["o." +:+ KeyName s] else []).
Proof.
  unfold updateElem. rewrite slicesOf_elem.
  destruct (nonempty (KeyName s)); [done|by rewrite app_nil_r].
Qed.

Lemma wrapperBlocks_NoUpdate (noUpdate : gset string) (s : SQLInfo) :
  wrapperBlocks (set_NoUpdate noUpdate s) = wrapperBlocks s.
Proof.
  unfold wrapperBlocks.
  rewrite !updateElem_members, !slicesOf_elem, !slicesOf_ptr, !slicesOf_sql,
    !slicesOf_names.
  reflexivity.
Qed.

(** The two lists of a descriptor whose identifiers are not empty and whose
    key member and key column are set together. *)
Lemma sql_persisted (s : SQLInfo) :
  members s = Order s ->
  w_sql (slicesOf s) = map snd (persisted s).
Proof.
  intros Hm. rewrite slicesOf_sql, Hm. unfold keyColumn, persisted.
  rewrite map_app, map_map. by destruct (nonempty (KeyField s)).
Qed.

Lemma ptr_persisted (s : SQLInfo) :
  members s = Order s ->
  nonempty (KeyName s) = nonempty (KeyField s) ->
  w_ptr (slicesOf s) = map (fun p => "&o." +:+ p.1) (persisted s).
Proof.
  intros Hm Hk. rewrite slicesOf_ptr, Hm. unfold keyPointer, persisted.
  rewrite map_app, map_map, Hk. by destruct (nonempty (KeyField s)).
Qed.

(** * The claims of the specification *)

(** ** The accessors of one descriptor *)

(** C1, as stated, fails on the example of the specification (key column
    id, one other column name): the generated InsertFields returns the
    list with the key column, not the list without it. *)
Lemma C1_counterexample :
  stringInsertFields "T" "id,name" ∈ wrapperBlocks exampleInfo
  /\ stringInsertFields "T" "name" ∉ wrapperBlocks exampleInfo.
Proof.
  split.
  - apply (bool_decide_unpack _). by vm_compute.
  - apply (bool_decide_unpack _). by vm_compute.
Qed.

(** C1, amended: for every descriptor with a key field, the generated
    InsertFields returns the comma-joined list of the key column followed by
    the columns of all members of Order, whatever the no-update set holds,
    while the generated InsertValues returns the values of the members of
    Order only, without the key member. *)
Theorem C1_insert_fields_keep_key (s : SQLInfo) :
  nonempty (KeyField s) = true ->
  forall noUpdate : gset string,
    let s' := set_NoUpdate noUpdate s in
    stringInsertFields (Name s)
      (Join (KeyField s :: map (column s) (members s)) ",") ∈ wrapperBlocks s'
    /\ stringInsertValues (Name s)
         (Join (map (String.append "o.") (members s)) ",") ∈ wrapperBlocks s'.
Proof.
  intros Hkey noUpdate s'. subst s'. rewrite wrapperBlocks_NoUpdate. split.
  - pose proof (block_InsertFields s) as H.
    rewrite slicesOf_sql in H. unfold keyColumn in H. by rewrite Hkey in H.
  - pose proof (block_InsertValues s) as H. by rewrite slicesOf_elem in H.
Qed.

(** The theorem of C1 on the example of the specification. *)
Lemma C1_insert_fields_keep_key_witness :
  nonempty (KeyField exampleInfo) = true
  /\ forall noUpdate : gset string,
      let s' := set_NoUpdate noUpdate exampleInfo in
      stringInsertFields (Name exampleInfo)
        (Join (KeyField exampleInfo :: map (column exampleInfo) (members exampleInfo)) ",")
        ∈ wrapperBlocks s'
      /\ stringInsertValues (Name exampleInfo)
           (Join (map (String.append "o.") (members exampleInfo)) ",")
           ∈ wrapperBlocks s'.
Proof.
  split; [reflexivity|].
  apply (C1_insert_fields_keep_key exampleInfo). reflexivity.
Defined.

(** C9: for every descriptor the generated InsertFields and the generated
    SelectFields return the same string, the comma-join of the key column
    (when there is one) followed by the columns of the members of Order. *)
Theorem C9_insert_fields_equal_select_fields (s : SQLInfo) :
  exists cols : string,
    cols = Join (keyColumn s ++ map (column s) (members s)) ","
    /\ stringSelectFields (Name s) cols ∈ wrapperBlocks s
    /\ stringInsertFields (Name s) cols ∈ wrapperBlocks s.
Proof.
  exists (Join (w_sql (slicesOf s)) ","). split; [by rewrite slicesOf_sql|].
  split; [apply block_SelectFields|apply block_InsertFields].
Qed.

(** ** The descriptor of a struct *)

Section Descriptor.

Variable Get : string -> string -> string.

Lemma sqlTags_Some (typeName : string) (fields : list Field) (s : SQLInfo) :
  sqlTags Get typeName fields = Ok (Some s) ->
  sqlTagsLoop Get (emptyInfo, false) fields = Ok (s, true).
Proof.
  unfold sqlTags. destruct (sqlTagsLoop Get (emptyInfo, false) fields) as [[i g]|]; [|done].
  destruct g; intros; by simplify_eq.
Qed.

Lemma sqlTags_key_together (typeName : string) (fields : list Field) (s : SQLInfo) :
  forallb identsOk fields = true ->
  sqlTags Get typeName fields = Ok (Some s) ->
  nonempty (KeyName s) = nonempty (KeyField s).
Proof.
  intros Hid H%sqlTags_Some.
  pose proof (sqlTagsLoop_named Get _ _ _ _ _ H) as Hn.
  apply sqlTagsLoop_Key in H.
  pose proof (lastKey_nonempty Get fields (EmptyString, EmptyString) Hn Hid eq_refl) as Hk.
  cbn in H. by rewrite <- H in Hk.
Qed.

Lemma sqlTags_members (typeName : string) (fields : list Field) (s : SQLInfo) :
  forallb identsOk fields = true ->
  sqlTags Get typeName fields = Ok (Some s) ->
  Order s = columnMembers Get fields /\ members s = columnMembers Get fields.
Proof.
  intros Hid H%sqlTags_Some.
  pose proof (sqlTagsLoop_named Get _ _ _ _ _ H) as Hn.
  apply sqlTagsLoop_Order in H. cbn in H.
  split; [done|]. unfold members. rewrite H. by apply columnMembers_nonempty.
Qed.

(** C5: for the descriptor of every struct, the generated SelectFields and
    the generated MemberPointers list the persisted members position by
    position: the key member (with the key column) first when there is a
    key, then the members of the ordinary columns in declaration order. *)
Theorem C5_select_fields_and_member_pointers_agree
        (typeName : string) (fields : list Field) (s : SQLInfo) :
  forallb identsOk fields = true ->
  sqlTags Get typeName fields = Ok (Some s) ->
  Order s = columnMembers Get fields
  /\ forall n : string,
      stringSelectFields n (Join (map snd (persisted s)) ",")
        ∈ wrapperBlocks (set_Name n s)
      /\ stringMemberPointers n
           (Join (map (fun p => "&o." +:+ p.1) (persisted s)) ",")
           ∈ wrapperBlocks (set_Name n s).
Proof.
  intros Hwf H.
  destruct (sqlTags_members _ _ _ Hwf H) as [Ho Hm].
  pose proof (sqlTags_key_together _ _ _ Hwf H) as Hk.
  split; [done|]. intros n.
  change (persisted s) with (persisted (set_Name n s)). split.
  - rewrite <- (sql_persisted (set_Name n s)); [apply (block_SelectFields (set_Name n s))|].
    unfold members in *. cbn. congruence.
  - rewrite <- (ptr_persisted (set_Name n s)); [apply (block_MemberPointers (set_Name n s))|..|done].
    unfold members in *. cbn. congruence.
Qed.

(** C6: for the descriptor of every struct with a key field, the generated
    UpdateValues returns the values of the members of the ordinary columns
    in declaration order followed by the key member, one more value than
    there are ordinary columns, whatever the no-update set holds. *)
Theorem C6_update_values_end_with_key
        (typeName : string) (fields : list Field) (s : SQLInfo) :
  forallb identsOk fields = true ->
  sqlTags Get typeName fields = Ok (Some s) ->
  nonempty (KeyField s) = true ->
  forall (n : string) (noUpdate : gset string),
    let s' := set_NoUpdate noUpdate (set_Name n s) in
    updateElem s' =
      map (String.append "o.") (columnMembers Get fields) ++ ["o." +:+ KeyName s]
    /\ List.length (updateElem s') = List.length (columnMembers Get fields) + 1
    /\ stringUpdateValues n (Join (updateElem s') ",") ∈ wrapperBlocks s'.
Proof.
  intros Hwf H Hkey n noUpdate s'.
  destruct (sqlTags_members _ _ _ Hwf H) as [Ho Hm].
  pose proof (sqlTags_key_together _ _ _ Hwf H) as Hk. rewrite Hkey in Hk.
  assert (updateElem s' =
          map (String.append "o.") (columnMembers Get fields) ++ ["o." +:+ KeyName s])
    as He.
  { subst s'. rewrite updateElem_members. unfold members in *. cbn.
    by rewrite Hm, Hk. }
  split; [done|]. split.
  - rewrite He, length_app, length_map. reflexivity.
  - apply (block_UpdateValues s').
Qed.

End Descriptor.

(** The theorem of C5 on the struct of [struct_test.go]. *)
Lemma C5_select_fields_and_member_pointers_agree_witness :
  Order testInfo = columnMembers StructTag_Get testStruct
  /\ forall n : string,
      stringSelectFields n (Join (map snd (persisted testInfo)) ",")
        ∈ wrapperBlocks (set_Name n testInfo)
      /\ stringMemberPointers n
           (Join (map (fun p => "&o." +:+ p.1) (persisted testInfo)) ",")
           ∈ wrapperBlocks (set_Name n testInfo).
Proof.
  apply (C5_select_fields_and_member_pointers_agree StructTag_Get "testStruct" testStruct).
  - by vm_compute.
  - by vm_compute.
Defined.

(** The theorem of C6 on the struct of [struct_test.go]. *)
Lemma C6_update_values_end_with_key_witness :
  let s' := set_NoUpdate ∅ (set_Name "testStruct" testInfo) in
  updateElem s' =
    map (String.append "o.") (columnMembers StructTag_Get testStruct)
    ++ ["o." +:+ KeyName testInfo]
  /\ List.length (updateElem s') = List.length (columnMembers StructTag_Get testStruct) + 1
  /\ stringUpdateValues "testStruct" (Join (updateElem s') ",") ∈ wrapperBlocks s'.
Proof.
  apply (C6_update_values_end_with_key StructTag_Get "testStruct" testStruct testInfo).
  - by vm_compute.
  - by vm_compute.
  - reflexivity.
Defined.


(** All blocks but the last one, the audit method, are determined by the
    name, the table, the key and the columns of the descriptor. *)
Lemma wrapperBlocks_but_audit (s1 s2 : SQLInfo) :
  Name s1 = Name s2 -> Table s1 = Table s2 ->
  KeyName s1 = KeyName s2 -> KeyField s1 = KeyField s2 ->
  Order s1 = Order s2 -> Fields s1 = Fields s2 ->
  firstn 15 (wrapperBlocks s1) = firstn 15 (wrapperBlocks s2).
Proof.
  destruct s1, s2. cbn [Name Table KeyName KeyField Order Fields].
  intros -> -> -> -> -> ->. unfold wrapperBlocks.
  rewrite !updateElem_members, !slicesOf_elem, !slicesOf_ptr, !slicesOf_sql,
    !slicesOf_names.
  unfold members, keyColumn, keyPointer, column. cbn [Name Table KeyName KeyField Order Fields UserField TimeField].
  by destruct (nonempty KeyField1).
Qed.

(** ** What one field and one struct contribute *)

Section Aggregation.

Variable Get : string -> string -> string.

(** C2, amended: a member is in the no-update set of the descriptor exactly
    when the update value of a field of that name parses as the boolean
    false, whether or not that field is the key; a malformed update value
    never counts as false. *)
Theorem C2_no_update_iff_update_false
        (typeName : string) (fields : list Field) (s : SQLInfo) :
  sqlTags Get typeName fields = Ok (Some s) ->
  (forall n : string,
      n ∈ NoUpdate s <->
      exists f, f ∈ fields /\ updateFalse Get f = true /\ memberName f = n)
  /\ (forall f : Field,
         ParseBool (tagValue Get f "update") = None -> updateFalse Get f = false).
Proof.
  intros H%sqlTags_Some. split.
  - intros n. rewrite (sqlTagsLoop_NoUpdate Get _ _ _ _ _ n H). cbn. split.
    + intros [Hin|?]; [by apply not_elem_of_empty in Hin|done].
    + by right.
  - intros f Hf. unfold updateFalse. rewrite Hf.
    rewrite bool_decide_eq_false_2; [apply andb_false_r|done].
Qed.


(** C4, amended: the table of the descriptor, which the generated TableName
    returns, is the table value of the last field in declaration order that
    carries both a non-empty sql value and a non-empty table value, and is
    empty when there is no such field. *)
Theorem C4_table_last_wins
        (typeName : string) (fields : list Field) (s : SQLInfo) :
  sqlTags Get typeName fields = Ok (Some s) ->
  Table s = lastTable Get EmptyString fields
  /\ forall n : string,
      stringTableName n (lastTable Get EmptyString fields)
        ∈ wrapperBlocks (set_Name n s).
Proof.
  intros H%sqlTags_Some. apply sqlTagsLoop_Table in H. cbn in H.
  split; [done|]. intros n. rewrite <- H.
  apply (block_TableName (set_Name n s)).
Qed.

End Aggregation.

(** C2, as stated, fails on a key field whose update value is false: the
    key member is recorded in the no-update set. *)
Lemma C2_counterexample :
  sqlTags StructTag_Get "T" [keyNoUpdate] = Ok (Some keyNoUpdateInfo)
  /\ ~ (memberName keyNoUpdate ∈ NoUpdate keyNoUpdateInfo <->
        updateFalse StructTag_Get keyNoUpdate = true
        /\ isKey StructTag_Get keyNoUpdate = false).
Proof.
  split; [by vm_compute|].
  intros [Hto _].
  assert (memberName keyNoUpdate ∈ NoUpdate keyNoUpdateInfo) as Hin.
  { apply (bool_decide_unpack _). by vm_compute. }
  destruct (Hto Hin) as [_ Hkey]. by vm_compute in Hkey.
Qed.

(** The theorem of C2 on the struct of [struct_test.go]. *)
Lemma C2_no_update_iff_update_false_witness :
  (forall n : string,
      n ∈ NoUpdate testInfo <->
      exists f, f ∈ testStruct /\ updateFalse StructTag_Get f = true
                /\ memberName f = n)
  /\ (forall f : Field,
         ParseBool (tagValue StructTag_Get f "update") = None ->
         updateFalse StructTag_Get f = false).
Proof.
  apply (C2_no_update_iff_update_false StructTag_Get "testStruct" testStruct testInfo).
  by vm_compute.
Defined.



(** C4, as stated, fails when the last field with a table value has no sql
    value: the table of the descriptor stays the one of the earlier field. *)
Lemma C4_counterexample :
  sqlTags StructTag_Get "T" twoTables = Ok (Some twoTablesInfo)
  /\ lastTableAsStated StructTag_Get twoTables = "t2"
  /\ Table twoTablesInfo = "t1"
  /\ stringTableName "T" "t2" ∉ wrapperBlocks (set_Name "T" twoTablesInfo).
Proof.
  split; [by vm_compute|]. split; [by vm_compute|]. split; [reflexivity|].
  apply (bool_decide_unpack _). by vm_compute.
Qed.

(** The theorem of C4 on the struct with two table values. *)
Lemma C4_table_last_wins_witness :
  Table twoTablesInfo = lastTable StructTag_Get EmptyString twoTables
  /\ forall n : string,
      stringTableName n (lastTable StructTag_Get EmptyString twoTables)
        ∈ wrapperBlocks (set_Name n twoTablesInfo).
Proof.
  apply (C4_table_last_wins StructTag_Get "T" twoTables twoTablesInfo).
  by vm_compute.
Defined.

(** ** Generation is a function of the source *)

Lemma fold_Printf (l : list string) (b : string) :
  fold_left Printf l b = b +:+ fold_left Printf l EmptyString.
Proof.
  revert b. induction l as [|x l IH]; intros b; cbn [fold_left].
  - by rewrite append_empty_r.
  - rewrite (IH (Printf b x)), (IH (Printf EmptyString x)).
    unfold Printf. by rewrite append_assoc.
Qed.

Lemma buildWrappers_frame (s : SQLInfo) (b : string) :
  buildWrappers s b = b +:+ buildWrappers s EmptyString.
Proof. apply fold_Printf. Qed.

Lemma fold_buildWrappers (vs : list SQLInfo) (b : string) :
  fold_left (fun b v => buildWrappers v b) vs b =
  b +:+ fold_left (fun b v => buildWrappers v b) vs EmptyString.
Proof.
  revert b. induction vs as [|v vs IH]; intros b; cbn [fold_left].
  - by rewrite append_empty_r.
  - rewrite (IH (buildWrappers v b)), (IH (buildWrappers v EmptyString)).
    by rewrite (buildWrappers_frame v b), append_assoc.
Qed.

Section Determinism.

Variable Get : string -> string -> string.

(** The text one file adds does not depend on the text before it. *)
Lemma generateFile_frame (typeName b : string) (f : File) :
  generateFile Get typeName b f =
  match generateFile Get typeName EmptyString f with
  | Ok (out, f') => Ok (b +:+ out, f')
  | Panic => Panic
  end.
Proof.
  unfold generateFile. cbn [file]. destruct (file f) as [ast|]; cbn.
  - destruct (Inspect Get ast _) as [f'|]; cbn; [|done].
    by rewrite fold_buildWrappers.
  - by rewrite append_empty_r.
Qed.

(** Nor on the name to match the file held before. *)
Lemma generateFile_sameSource (typeName b : string) (f1 f2 : File) :
  sameSource f1 f2 ->
  generateFile Get typeName b f1 = generateFile Get typeName b f2.
Proof.
  destruct f1, f2. unfold sameSource. cbn. intros (-> & -> & ->). reflexivity.
Qed.

Lemma generateFiles_sameSource (typeName : string) (fs1 fs2 : list File) :
  Forall2 sameSource fs1 fs2 ->
  forall b1 b2 : string,
    match generateFiles Get typeName b1 fs1, generateFiles Get typeName b2 fs2 with
    | Ok (b1', fs1'), Ok (b2', fs2') =>
        (exists out, b1' = b1 +:+ out /\ b2' = b2 +:+ out) /\ fs1' = fs2'
    | Panic, Panic => True
    | _, _ => False
    end.
Proof.
  induction 1 as [|f1 f2 fs1 fs2 Hf Hrest IH]; intros b1 b2; cbn [generateFiles].
  - split; [|done]. exists EmptyString. by rewrite !append_empty_r.
  - rewrite (generateFile_sameSource typeName b1 f1 f2 Hf).
    rewrite (generateFile_frame typeName b1 f2), (generateFile_frame typeName b2 f2).
    destruct (generateFile Get typeName EmptyString f2) as [[out f']|]; [|done].
    specialize (IH (b1 +:+ out) (b2 +:+ out)).
    destruct (generateFiles Get typeName (b1 +:+ out) fs1) as [[b1' fs1']|],
             (generateFiles Get typeName (b2 +:+ out) fs2) as [[b2' fs2']|];
      try done.
    destruct IH as [(out' & -> & ->) ->]. split; [|done].
    exists (out +:+ out'). by rewrite !append_assoc.
Qed.

Lemma sameSource_refl (fs : list File) : Forall2 sameSource fs fs.
Proof. induction fs; constructor; [done|assumption]. Qed.

Lemma generate_sameRun (typeName : string) (g1 g2 : Generator) :
  Forall2 sameSource (files g1) (files g2) ->
  sameRun g1 g2 (generate Get typeName g1) (generate Get typeName g2).
Proof.
  intros Hfs. unfold generate, sameRun.
  pose proof (generateFiles_sameSource typeName _ _ Hfs (buf g1) (buf g2)) as H.
  destruct (generateFiles Get typeName (buf g1) (files g1)) as [[b1' fs1']|],
           (generateFiles Get typeName (buf g2) (files g2)) as [[b2' fs2']|];
    try done.
  destruct H as [Hout ->]. cbn. split; [done|apply sameSource_refl].
Qed.

Lemma generateNames_sameRun (names : list string) (g1 g2 : Generator) :
  Forall2 sameSource (files g1) (files g2) ->
  sameRun g1 g2 (generateNames Get names g1) (generateNames Get names g2).
Proof.
  revert g1 g2. induction names as [|typeName names IH]; intros g1 g2 Hfs.
  - cbn. split; [|done]. exists EmptyString. by rewrite !append_empty_r.
  - cbn [generateNames].
    pose proof (generate_sameRun typeName g1 g2 Hfs) as H. unfold sameRun in H.
    destruct (generate Get typeName g1) as [g1'|],
             (generate Get typeName g2) as [g2'|]; try done.
    destruct H as [(out & Hb1 & Hb2) Hfs'].
    specialize (IH g1' g2' Hfs'). unfold sameRun in *.
    destruct (generateNames Get names g1') as [g1''|],
             (generateNames Get names g2') as [g2''|]; try done.
    destruct IH as [(out' & -> & ->) Hfs'']. split; [|done].
    exists (out +:+ out'). by rewrite Hb1, Hb2, !append_assoc.
Qed.


End Determinism.


(** ** Structs without persisted field *)

Section Skipped.

Variable Get : string -> string -> string.

(** A struct of named fields none of which has a sql value yields the nil
    descriptor. *)
Lemma sqlTags_no_sql (typeName : string) (fields : list Field) :
  forallb wellFormed fields = true ->
  existsb (hasSql Get) fields = false ->
  sqlTags Get typeName fields = Ok None.
Proof.
  intros Hwf Hsql. unfold sqlTags.
  destruct (sqlTagsLoop_wellFormed Get fields (emptyInfo, false) Hwf) as [[i g] H].
  rewrite H. apply sqlTagsLoop_good in H. rewrite Hsql in H. by subst g.
Qed.

(** [genDecl] then leaves the accumulator of the file as it is, so that
    [generate] has no block to emit for the struct. *)
Lemma genDecl_no_sql (f : File) (fields : list Field) (children : list Node) :
  forallb wellFormed fields = true ->
  existsb (hasSql Get) fields = false ->
  exists descend : bool,
    genDecl Get f (StructType fields children) = Ok (descend, f).
Proof.
  intros Hwf Hsql. unfold genDecl.
  destruct (negb (nonempty (findName f)) || bool_decide (findName f = TypeName f));
    [|by eauto].
  rewrite (sqlTags_no_sql _ _ Hwf Hsql). cbn. by eauto.
Qed.

(** ** Structs that differ in their update values only *)

Lemma sameButUpdate_reads (f1 f2 : Field) :
  sameButUpdate Get f1 f2 ->
  hasSql Get f1 = hasSql Get f2 /\ isKey Get f1 = isKey Get f2
  /\ isColumn Get f1 = isColumn Get f2 /\ setsTable Get f1 = setsTable Get f2
  /\ memberName f1 = memberName f2
  /\ tagValue Get f1 "sql" = tagValue Get f2 "sql"
  /\ tagValue Get f1 "table" = tagValue Get f2 "table"
  /\ (forall role, hasAudit Get role f1 = hasAudit Get role f2).
Proof.
  intros [Hn Hv].
  assert (tagValue Get f1 "sql" = tagValue Get f2 "sql") as Hs
    by (apply Hv; set_solver).
  assert (tagValue Get f1 "table" = tagValue Get f2 "table") as Ht
    by (apply Hv; set_solver).
  assert (tagValue Get f1 "key" = tagValue Get f2 "key") as Hk
    by (apply Hv; set_solver).
  assert (tagValue Get f1 "audit" = tagValue Get f2 "audit") as Ha
    by (apply Hv; set_solver).
  unfold isKey, isColumn, setsTable, hasSql, hasAudit, memberName.
  by rewrite Hs, Ht, Hk, Ha, Hn.
Qed.

Lemma agree_intro (i1 i2 : SQLInfo) :
  Name i1 = Name i2 -> Table i1 = Table i2 ->
  KeyName i1 = KeyName i2 -> KeyField i1 = KeyField i2 ->
  UserField i1 = UserField i2 -> TimeField i1 = TimeField i2 ->
  Order i1 = Order i2 -> Fields i1 = Fields i2 ->
  agree i1 i2.
Proof.
  destruct i1, i2. unfold agree, set_NoUpdate. cbn.
  by intros -> -> -> -> -> -> -> ->.
Qed.

Lemma agree_elim (i1 i2 : SQLInfo) :
  agree i1 i2 ->
  Name i1 = Name i2 /\ Table i1 = Table i2
  /\ KeyName i1 = KeyName i2 /\ KeyField i1 = KeyField i2
  /\ UserField i1 = UserField i2 /\ TimeField i1 = TimeField i2
  /\ Order i1 = Order i2 /\ Fields i1 = Fields i2.
Proof.
  destruct i1, i2. unfold agree, set_NoUpdate. cbn. intros H.
  injection H as -> -> -> -> -> -> -> ->. by repeat split.
Qed.

Lemma sqlTagsLoop_sameButUpdate (fs1 fs2 : list Field) :
  Forall2 (sameButUpdate Get) fs1 fs2 ->
  forall i1 i2 g i1' i2' g1' g2',
    agree i1 i2 ->
    sqlTagsLoop Get (i1, g) fs1 = Ok (i1', g1') ->
    sqlTagsLoop Get (i2, g) fs2 = Ok (i2', g2') ->
    agree i1' i2' /\ g1' = g2'.
Proof.
  induction 1 as [|f1 f2 fs1 fs2 Hf Hrest IH]; intros i1 i2 g i1' i2' g1' g2' Hi H1 H2.
  - change (Ok (i1, g) = Ok (i1', g1')) in H1.
    change (Ok (i2, g) = Ok (i2', g2')) in H2. by simplify_eq.
  - apply sqlTagsLoop_cons in H1 as ([j1 h1] & Hs1 & H1).
    apply sqlTagsLoop_cons in H2 as ([j2 h2] & Hs2 & H2).
    apply sqlTagsField_spec in Hs1, Hs2. unfold stepSpec in Hs1, Hs2.
    destruct (sameButUpdate_reads f1 f2 Hf)
      as (Esql & Ekey & Ecol & Etab & Emem & Evs & Evt & Eaud).
    rewrite Esql, Ekey, Ecol, Etab, Emem, Evs, Evt, !Eaud in Hs1.
    destruct Hs1 as (-> & N1 & T1 & KN1 & KF1 & O1 & F1 & U1 & TI1 & _ & _).
    destruct Hs2 as (-> & N2 & T2 & KN2 & KF2 & O2 & F2 & U2 & TI2 & _ & _).
    apply (IH j1 j2 (g || hasSql Get f2) i1' i2' g1' g2'); [|done..].
    apply agree_elim in Hi as (EN & ET & EKN & EKF & EU & ETI & EO & EF).
    apply agree_intro.
    all: rewrite ?N1, ?N2, ?T1, ?T2, ?KN1, ?KN2, ?KF1, ?KF2, ?O1, ?O2,
           ?F1, ?F2, ?U1, ?U2, ?TI1, ?TI2.
    all: by rewrite ?EN, ?ET, ?EKN, ?EKF, ?EU, ?ETI, ?EO, ?EF.
Qed.

(** But for a panic, the update values do not reach the generated text:
    two structs of named fields that differ in their update values only
    yield the same blocks. *)
Lemma wrapperBlocks_sameButUpdate (typeName : string) (fs1 fs2 : list Field) :
  Forall2 (sameButUpdate Get) fs1 fs2 ->
  forallb wellFormed fs1 = true ->
  forallb wellFormed fs2 = true ->
  match sqlTags Get typeName fs1, sqlTags Get typeName fs2 with
  | Ok (Some s1), Ok (Some s2) =>
      forall n, wrapperBlocks (set_Name n s1) = wrapperBlocks (set_Name n s2)
  | Ok None, Ok None => True
  | _, _ => False
  end.
Proof.
  intros Hfs Hwf1 Hwf2. unfold sqlTags.
  destruct (sqlTagsLoop_wellFormed Get fs1 (emptyInfo, false) Hwf1) as [[i1 g1] H1].
  destruct (sqlTagsLoop_wellFormed Get fs2 (emptyInfo, false) Hwf2) as [[i2 g2] H2].
  rewrite H1, H2.
  destruct (sqlTagsLoop_sameButUpdate fs1 fs2 Hfs _ _ _ _ _ _ _ eq_refl H1 H2)
    as [Hi ->].
  destruct g2; [|done]. intros n.
  rewrite <- (wrapperBlocks_NoUpdate ∅ (set_Name n i1)).
  rewrite <- (wrapperBlocks_NoUpdate ∅ (set_Name n i2)).
  apply agree_elim in Hi as (? & ? & ? & ? & ? & ? & ? & ?).
  f_equal. unfold set_NoUpdate, set_Name. cbn. congruence.
Qed.

End Skipped.

(** C8 holds for structs of named fields ([sqlTags_no_sql],
    [genDecl_no_sql]); the code breaks it on an embedded field.  For the
    struct whose only field is embedded and carries the audit role time, no
    field has a sql value, and yet neither the tag parser nor the generator
    returns: both panic on the missing name. *)
Theorem C8_embedded_field_panics :
  existsb (hasSql StructTag_Get) embeddedAudit = false
  /\ sqlTags StructTag_Get "T" embeddedAudit = Panic
  /\ generate StructTag_Get EmptyString
       (mkGenerator EmptyString [newFile (Some embeddedAuditFile)]) = Panic.
Proof. repeat split; by vm_compute. Qed.

(** C10 holds for structs of named fields ([wrapperBlocks_sameButUpdate],
    [wrapperBlocks_NoUpdate]); the code breaks it on an embedded field.  Of
    the two structs that differ only in the update value of their embedded
    field, the one with the value true gets its block, the one with the
    value false makes the generator panic. *)
Theorem C10_embedded_update_value_changes_outcome :
  Forall2 (sameButUpdate StructTag_Get) (embeddedUpdate "true") (embeddedUpdate "false")
  /\ generate StructTag_Get EmptyString
       (mkGenerator EmptyString [newFile (Some (embeddedUpdateFile "true"))])
     = Ok (mkGenerator (buildWrappers embeddedUpdateInfo EmptyString)
             [mkFile (Some (embeddedUpdateFile "true")) "T" EmptyString
                     [embeddedUpdateInfo]])
  /\ generate StructTag_Get EmptyString
       (mkGenerator EmptyString [newFile (Some (embeddedUpdateFile "false"))])
     = Panic.
Proof.
  split; [|split; by vm_compute].
  repeat constructor; intros key Hkey;
    repeat (apply elem_of_cons in Hkey as [->|Hkey]; [by vm_compute|]);
    by apply elem_of_nil in Hkey.
Qed.

(** * Further properties of the generator *)

(** ** When the tag parser returns *)

Section Outcome.

Variable Get : string -> string -> string.

(** Whether an iteration panics depends on the field only. *)
Lemma sqlTagsField_panics (st : SQLInfo * bool) (f : Field) :
  sqlTagsField Get st f = Panic <-> fieldPanics Get f = true.
Proof.
  unfold sqlTagsField, fieldPanics, hasSql, hasAudit, updateFalse, tagValue,
    stripQuotes, sqlBlock, auditBlock, updateBlock, firstName,
    mbind, mret, result_bind, result_ret.
  destruct f as [ns [s|]]; cbn [Tag Names]; [|by split].
  destruct (Nat.leb 2 (String.length s)); [|by split]. cbn.
  set (tag := substring 1 (String.length s - 2) s).
  destruct ns as [|n ns]; cbn.
  - destruct (nonempty (Get tag "sql")) eqn:Hsql; cbn; [by split|].
    destruct (nonempty (Get tag "audit")) eqn:Haud; cbn.
    + destruct (decide (Get tag "audit" = "user")) as [->|Hu]; cbn; [by split|].
      rewrite (bool_decide_eq_false_2 _ Hu). cbn.
      destruct (decide (Get tag "audit" = "time")) as [->|Ht]; cbn; [by split|].
      rewrite (bool_decide_eq_false_2 _ Ht). cbn.
      destruct (nonempty (Get tag "update")); cbn; [|by split].
      destruct (ParseBool (Get tag "update")) as [[|]|]; cbn; by split.
    + assert (Get tag "audit" = EmptyString) as ->
        by (by destruct (Get tag "audit")).
      cbn. destruct (nonempty (Get tag "update")); cbn; [|by split].
      destruct (ParseBool (Get tag "update")) as [[|]|]; cbn; by split.
  - split; [|done].
    repeat (case_match || case_decide); done.
Qed.

Lemma sqlTagsLoop_panics (fields : list Field) (st : SQLInfo * bool) :
  sqlTagsLoop Get st fields = Panic <-> existsb (fieldPanics Get) fields = true.
Proof.
  revert st. induction fields as [|f fields IH]; intros st; [by split|].
  cbn [sqlTagsLoop existsb].
  destruct (sqlTagsField Get st f) as [st1|] eqn:E; cbn.
  - destruct (fieldPanics Get f) eqn:Ep.
    + apply (sqlTagsField_panics st) in Ep. rewrite Ep in E. done.
    + cbn. apply IH.
  - apply sqlTagsField_panics in E. rewrite E. done.
Qed.

(** X1: the outcome of the tag parser is decided by the fields alone.  It
    panics exactly when some field lacks a delimiter of its tag literal or
    is embedded while the parser reads its name; otherwise it returns a
    descriptor exactly when some field has a sql value. *)
Theorem sqlTags_outcome (typeName : string) (fields : list Field) :
  match sqlTags Get typeName fields with
  | Panic => existsb (fieldPanics Get) fields = true
  | Ok None =>
      existsb (fieldPanics Get) fields = false
      /\ existsb (hasSql Get) fields = false
  | Ok (Some _) =>
      existsb (fieldPanics Get) fields = false
      /\ existsb (hasSql Get) fields = true
  end.
Proof.
  unfold sqlTags.
  destruct (sqlTagsLoop Get (emptyInfo, false) fields) as [[i g]|] eqn:E.
  - assert (existsb (fieldPanics Get) fields = false) as Hp.
    { destruct (existsb (fieldPanics Get) fields) eqn:Ep; [|done].
      apply (sqlTagsLoop_panics fields (emptyInfo, false)) in Ep.
      rewrite Ep in E. done. }
    apply sqlTagsLoop_good in E. cbn in E. subst g.
    destruct (existsb (hasSql Get) fields); done.
  - by apply sqlTagsLoop_panics in E.
Qed.

End Outcome.

(** ** The key, the audit members and the columns of a descriptor *)

Section DescriptorMore.

Variable Get : string -> string -> string.

Lemma sqlTagsLoop_audit fields info good info' good' :
  sqlTagsLoop Get (info, good) fields = Ok (info', good') ->
  UserField info' = lastAudit Get "user" (UserField info) fields
  /\ TimeField info' = lastAudit Get "time" (TimeField info) fields.
Proof.
  revert info good. induction fields as [|f fields IH]; intros info good H.
  - change (Ok (info, good) = Ok (info', good')) in H. by simplify_eq.
  - apply sqlTagsLoop_cons in H as ([i1 g1] & H1 & H2).
    apply sqlTagsField_spec in H1. unfold stepSpec in H1.
    destruct H1 as (_ & _ & _ & _ & _ & _ & _ & Hu & Ht & _).
    apply IH in H2 as [-> ->]. rewrite Hu, Ht. unfold lastAudit.
    cbn [List.filter].
    destruct (hasAudit Get "user" f), (hasAudit Get "time" f); cbn [map];
      by rewrite ?last_cons.
Qed.

Lemma lastKey_none (fields : list Field) (k : string * string) :
  existsb (isKey Get) fields = false -> lastKey Get k fields = k.
Proof.
  unfold lastKey. induction fields as [|f fields IH]; [done|].
  cbn [existsb List.filter]. destruct (isKey Get f); [done|]. apply IH.
Qed.

Lemma lastKey_some (fields : list Field) (k : string * string) :
  existsb (isKey Get) fields = true ->
  nonempty (lastKey Get k fields).2 = true.
Proof.
  revert k. unfold lastKey. induction fields as [|f fields IH]; intros k; [done|].
  cbn [existsb List.filter]. destruct (isKey Get f) eqn:E; cbn [map orb].
  - intros _. rewrite last_cons.
    destruct (existsb (isKey Get) fields) eqn:Er; [by apply IH|].
    pose proof (lastKey_none fields (memberName f, tagValue Get f "sql") Er) as Hn.
    unfold lastKey in Hn. rewrite Hn. cbn.
    unfold isKey, hasSql in E. by apply andb_prop in E as [-> _].
  - apply IH.
Qed.

(** X2: with several key fields the last one wins.  The key member and the
    key column of the descriptor, which the generated KeyName and KeyField
    return, are those of the last field in declaration order that has both a
    sql value and a key value; no field with a key value is listed among the
    ordinary columns, so that an earlier key field is persisted nowhere. *)
Theorem key_last_wins (typeName : string) (fields : list Field) (s : SQLInfo) :
  sqlTags Get typeName fields = Ok (Some s) ->
  (KeyName s, KeyField s) = lastKey Get (EmptyString, EmptyString) fields
  /\ Order s = columnMembers Get fields
  /\ forall n : string,
      stringKeyName n (lastKey Get (EmptyString, EmptyString) fields).1
        ∈ wrapperBlocks (set_Name n s)
      /\ stringKeyField n (lastKey Get (EmptyString, EmptyString) fields).2
           ∈ wrapperBlocks (set_Name n s).
Proof.
  intros H%sqlTags_Some.
  pose proof (sqlTagsLoop_Key Get _ _ _ _ _ H) as Hk.
  pose proof (sqlTagsLoop_Order Get _ _ _ _ _ H) as Ho. cbn in Hk, Ho.
  split; [done|]. split; [done|]. intros n. rewrite <- Hk. cbn [fst snd].
  unfold wrapperBlocks. split; set_solver.
Qed.

(** X3: a struct without key field still gets its methods: the generated
    Key returns 0, the generated SetID does nothing, KeyField and KeyName
    return the empty string, and UpdateValues lists the same values as
    InsertValues. *)
Theorem no_key_descriptor (typeName : string) (fields : list Field) (s : SQLInfo) :
  sqlTags Get typeName fields = Ok (Some s) ->
  existsb (isKey Get) fields = false ->
  KeyName s = EmptyString /\ KeyField s = EmptyString
  /\ forall n : string,
      let s' := set_Name n s in
      stringNoKey n ∈ wrapperBlocks s'
      /\ stringNoSetID n ∈ wrapperBlocks s'
      /\ stringKeyField n EmptyString ∈ wrapperBlocks s'
      /\ stringKeyName n EmptyString ∈ wrapperBlocks s'
      /\ updateElem s' = w_elem (slicesOf s').
Proof.
  intros H%sqlTags_Some Hno.
  pose proof (sqlTagsLoop_Key Get _ _ _ _ _ H) as Hk. cbn in Hk.
  rewrite (lastKey_none fields _ Hno) in Hk. injection Hk as Hkn Hkf.
  split; [done|]. split; [done|]. intros n s'. subst s'.
  unfold wrapperBlocks, updateElem. cbn [KeyField KeyName Name set_Name].
  rewrite Hkn, Hkf. cbn [nonempty]. repeat split; set_solver.
Qed.

Lemma sqlTags_audit_block (typeName : string) (fields : list Field) (s : SQLInfo) :
  sqlTags Get typeName fields = Ok (Some s) ->
  UserField s = lastAudit Get "user" EmptyString fields
  /\ TimeField s = lastAudit Get "time" EmptyString fields
  /\ forall n : string,
      auditString n (lastAudit Get "user" EmptyString fields)
                    (lastAudit Get "time" EmptyString fields)
        ∈ wrapperBlocks (set_Name n s).
Proof.
  intros H%sqlTags_Some. apply sqlTagsLoop_audit in H as [Hu Ht]. cbn in Hu, Ht.
  split; [done|]. split; [done|]. intros n. rewrite <- Hu, <- Ht.
  unfold wrapperBlocks. set_solver.
Qed.

(** X4: the audit members are read from every field, with or without sql
    value, and the last field of a role wins: the generated ModifiedBy
    assigns the member of the last field whose audit value is user and the
    member of the last field whose audit value is time.  Any other audit
    value is ignored. *)
Theorem audit_last_wins (typeName : string) (fields : list Field) (s : SQLInfo) :
  sqlTags Get typeName fields = Ok (Some s) ->
  UserField s = lastAudit Get "user" EmptyString fields
  /\ TimeField s = lastAudit Get "time" EmptyString fields
  /\ forall n : string,
      auditString n (lastAudit Get "user" EmptyString fields)
                    (lastAudit Get "time" EmptyString fields)
        ∈ wrapperBlocks (set_Name n s).
Proof. apply sqlTags_audit_block. Qed.

Lemma lastAudit_none (role init : string) (fields : list Field) :
  existsb (hasAudit Get role) fields = false -> lastAudit Get role init fields = init.
Proof.
  unfold lastAudit. induction fields as [|f fields IH]; [done|].
  cbn [existsb List.filter]. destruct (hasAudit Get role f); [done|]. apply IH.
Qed.

(** X5: a struct none of whose fields has the audit value user or time gets
    a ModifiedBy method with an empty body. *)
Theorem no_audit_empty_body (typeName : string) (fields : list Field) (s : SQLInfo) :
  sqlTags Get typeName fields = Ok (Some s) ->
  existsb (hasAudit Get "user") fields = false ->
  existsb (hasAudit Get "time") fields = false ->
  forall n : string,
    ("func (o *" +:+ n +:+ ") ModifiedBy(user int64, t time.Time) {" +:+ nl
     +:+ "}" +:+ nl +:+ nl +:+ nl) ∈ wrapperBlocks (set_Name n s).
Proof.
  intros H Hu Ht n.
  destruct (sqlTags_audit_block typeName fields s H) as (_ & _ & Hb).
  specialize (Hb n). rewrite (lastAudit_none _ _ _ Hu), (lastAudit_none _ _ _ Ht) in Hb.
  exact Hb.
Qed.

End DescriptorMore.

(** ** The columns the accessors list *)

Section Columns.

Variable Get : string -> string -> string.

(** A member that names no ordinary column keeps its entry in [Fields]. *)
Lemma sqlTagsLoop_Fields_other fields info good info' good' (m : string) :
  sqlTagsLoop Get (info, good) fields = Ok (info', good') ->
  m ∉ columnMembers Get fields ->
  Fields info' !! m = Fields info !! m.
Proof.
  revert info good. induction fields as [|f fields IH]; intros info good H Hm.
  - change (Ok (info, good) = Ok (info', good')) in H. by simplify_eq.
  - apply sqlTagsLoop_cons in H as ([i1 g1] & H1 & H2).
    apply sqlTagsField_spec in H1. unfold stepSpec in H1.
    destruct H1 as (_ & _ & _ & _ & _ & _ & Hf & _).
    unfold columnMembers in Hm. cbn [List.filter] in Hm.
    destruct (isColumn Get f); cbn [map] in Hm.
    + apply not_elem_of_cons in Hm as [Hne Hm].
      rewrite (IH _ _ H2 Hm), Hf. by apply lookup_insert_ne.
    + rewrite (IH _ _ H2 Hm), Hf. done.
Qed.

(** With distinct members, every ordinary column is found under its
    member. *)
Lemma sqlTagsLoop_Fields fields info good info' good' :
  sqlTagsLoop Get (info, good) fields = Ok (info', good') ->
  NoDup (columnMembers Get fields) ->
  map (fun k => Fields info' !! k) (columnMembers Get fields)
  = map Some (columnValues Get fields).
Proof.
  revert info good. induction fields as [|f fields IH]; intros info good H Hnd; [done|].
  apply sqlTagsLoop_cons in H as ([i1 g1] & H1 & H2).
  apply sqlTagsField_spec in H1. unfold stepSpec in H1.
  destruct H1 as (_ & _ & _ & _ & _ & _ & Hf & _).
  unfold columnMembers, columnValues in *. cbn [List.filter] in *.
  destruct (isColumn Get f); cbn [map] in *; [|by apply (IH _ _ H2)].
  apply NoDup_cons in Hnd as [Hnotin Hnd]. f_equal; [|by apply (IH _ _ H2)].
  rewrite (sqlTagsLoop_Fields_other _ _ _ _ _ _ H2 Hnotin), Hf.
  apply lookup_insert_eq.
Qed.

Lemma sqlTags_columns (typeName : string) (fields : list Field) (s : SQLInfo) :
  sqlTags Get typeName fields = Ok (Some s) ->
  NoDup (columnMembers Get fields) ->
  map (column s) (Order s) = columnValues Get fields.
Proof.
  intros H%sqlTags_Some Hnd.
  pose proof (sqlTagsLoop_Order Get _ _ _ _ _ H) as Ho. cbn in Ho. rewrite Ho.
  pose proof (sqlTagsLoop_Fields _ _ _ _ _ H Hnd) as Hf.
  unfold column.
  assert (forall (l : list string) (vs : list string),
             map (fun k => Fields s !! k) l = map Some vs ->
             map (fun k => default EmptyString (Fields s !! k)) l = vs) as Hmap.
  { induction l as [|k l IHl]; intros [|v vs]; cbn; try done.
    intros Heq. injection Heq as -> Hrest. f_equal. by apply IHl. }
  by apply Hmap.
Qed.

(** X6: every column is found again under its member.  For a struct whose
    ordinary columns have distinct member names, the generated SelectFields
    returns the key column, when there is one, followed by the sql values of
    the ordinary columns exactly as the tags give them, in declaration
    order. *)
Theorem select_fields_are_sql_values
        (typeName : string) (fields : list Field) (s : SQLInfo) :
  forallb identsOk fields = true ->
  NoDup (columnMembers Get fields) ->
  sqlTags Get typeName fields = Ok (Some s) ->
  map (column s) (Order s) = columnValues Get fields
  /\ forall n : string,
      stringSelectFields n (Join (keyColumn s ++ columnValues Get fields) ",")
        ∈ wrapperBlocks (set_Name n s).
Proof.
  intros Hid Hnd H.
  pose proof (sqlTags_columns _ _ _ H Hnd) as Hc.
  destruct (sqlTags_members Get _ _ _ Hid H) as [Ho Hm].
  split; [done|]. intros n.
  pose proof (block_SelectFields (set_Name n s)) as Hb.
  rewrite slicesOf_sql in Hb.
  change (keyColumn (set_Name n s)) with (keyColumn s) in Hb.
  change (members (set_Name n s)) with (members s) in Hb.
  change (column (set_Name n s)) with (column s) in Hb.
  rewrite Hm, <- Ho, Hc in Hb. exact Hb.
Qed.

(** X7: the generated Names lists the quoted members of the ordinary
    columns in declaration order; a key field adds no entry. *)
Theorem names_are_column_members
        (typeName : string) (fields : list Field) (s : SQLInfo) :
  forallb identsOk fields = true ->
  sqlTags Get typeName fields = Ok (Some s) ->
  forall n : string,
    stringNames n (Join (map (fun k => dq +:+ k +:+ dq) (columnMembers Get fields)) ",")
      ∈ wrapperBlocks (set_Name n s).
Proof.
  intros Hid H n.
  destruct (sqlTags_members Get _ _ _ Hid H) as [Ho Hm].
  assert (stringNames (Name (set_Name n s))
            (Join (w_names (slicesOf (set_Name n s))) ",")
            ∈ wrapperBlocks (set_Name n s)) as Hb
    by (unfold wrapperBlocks; set_solver).
  rewrite slicesOf_names in Hb.
  change (members (set_Name n s)) with (members s) in Hb.
  by rewrite Hm in Hb.
Qed.

End Columns.

(** ** The walk over the declarations *)

(** Induction over a tree, the children first. *)
Lemma Node_induction (P : Node -> Prop) :
  (forall t c, Forall P c -> P (TypeSpec t c)) ->
  (forall fs c, Forall P c -> P (StructType fs c)) ->
  (forall c, Forall P c -> P (OtherNode c)) ->
  forall n, P n.
Proof.
  intros HT HS HO. fix IH 1.
  intros [t c|fs c|c]; [apply HT|apply HS|apply HO];
    induction c as [|n c IHc]; constructor; auto.
Qed.

Section Walk.

Variable Get : string -> string -> string.

Lemma Inspect_unfold (n : Node) (f : File) :
  Inspect Get n f =
  match genDecl Get f n with
  | Panic => Panic
  | Ok (false, f1) => Ok f1
  | Ok (true, f1) => inspectList Get (childNodes n) f1
  end.
Proof. destruct n; reflexivity. Qed.

(** What one call of [genDecl] does to the file. *)
Lemma genDecl_grows (f f1 : File) (n : Node) (descend : bool) :
  genDecl Get f n = Ok (descend, f1) ->
  file f1 = file f /\ findName f1 = findName f
  /\ exists new, values f1 = values f ++ new
     /\ (nonempty (findName f) = true ->
         Forall (fun s => Name s = findName f) new).
Proof.
  destruct n as [t c|fields c|c]; cbn.
  - intros H. injection H as _ <-. cbn. repeat split.
    exists []. by rewrite app_nil_r.
  - destruct (negb (nonempty (findName f)) || bool_decide (findName f = TypeName f))
      eqn:Hmatch.
    + destruct (sqlTags Get (TypeName f) fields) as [[tags|]|]; cbn; [| |done].
      * intros H. injection H as _ <-. cbn. repeat split.
        exists [set_Name (TypeName f) tags]. split; [done|].
        intros Hne. rewrite Hne in Hmatch. cbn in Hmatch.
        apply bool_decide_eq_true_1 in Hmatch. constructor; [|constructor].
        by destruct tags.
      * intros H. injection H as _ <-. repeat split.
        exists []. by rewrite app_nil_r.
    + intros H. injection H as _ <-. repeat split.
      exists []. by rewrite app_nil_r.
  - intros H. injection H as _ <-. repeat split.
    exists []. by rewrite app_nil_r.
Qed.

Lemma grows_trans (f1 f2 f3 : File) : grows f1 f2 -> grows f2 f3 -> grows f1 f3.
Proof.
  intros (Hf1 & Hn1 & new1 & Hv1 & Hnew1) (Hf2 & Hn2 & new2 & Hv2 & Hnew2).
  split; [congruence|]. split; [congruence|].
  exists (new1 ++ new2). split; [by rewrite Hv2, Hv1, app_assoc|].
  intros Hne. apply Forall_app. split; [by apply Hnew1|].
  rewrite <- Hn1. apply Hnew2. by rewrite Hn1.
Qed.

Lemma inspectList_grows (l : list Node) :
  Forall (fun n => forall f f', Inspect Get n f = Ok f' -> grows f f') l ->
  forall f f', inspectList Get l f = Ok f' -> grows f f'.
Proof.
  induction 1 as [|n l Hn _ IH]; intros f f'; cbn.
  - intros H. injection H as <-. repeat split. exists [].
    split; [by rewrite app_nil_r|constructor].
  - destruct (Inspect Get n f) as [f1|] eqn:E; [|done].
    intros H. apply (grows_trans f f1 f'); [by apply Hn|by apply IH].
Qed.

Lemma Inspect_grows (n : Node) (f f' : File) :
  Inspect Get n f = Ok f' -> grows f f'.
Proof.
  revert f f'. induction n as [t c IH|fs c IH|c IH] using Node_induction;
    intros f f'; rewrite Inspect_unfold.
  all: destruct (genDecl Get f _) as [[[|] f1]|] eqn:E; [| |done].
  all: apply genDecl_grows in E.
  all: try (intros H; injection H as <-; exact E).
  all: intros H; apply (grows_trans f f1 f'); [exact E|].
  all: by apply (inspectList_grows _ IH).
Qed.

End Walk.

(** ** What [generate] does to the files and to the text *)

Lemma blocksText_app (vs ws : list SQLInfo) :
  blocksText (vs ++ ws) = blocksText vs +:+ blocksText ws.
Proof.
  unfold blocksText. rewrite fold_left_app. apply fold_buildWrappers.
Qed.

Section GenerateMore.

Variable Get : string -> string -> string.

Lemma generateFile_grows (typeName b b' : string) (f f' : File) :
  generateFile Get typeName b f = Ok (b', f') ->
  grownFrom typeName f f'
  /\ (nonempty typeName = true -> grownWith typeName f f')
  /\ b' = b +:+ (match file f with
                 | Some _ => blocksText (values f')
                 | None => EmptyString
                 end).
Proof.
  unfold generateFile. cbn [file]. destruct (file f) as [ast|] eqn:Hfile; cbn.
  - destruct (Inspect Get ast _) as [f1|] eqn:E; cbn; [|done].
    intros H. injection H as <- <-.
    apply Inspect_grows in E as (Hf & Hn & new & Hv & Hnew). cbn in *.
    split; [|split].
    + split; [congruence|]. split; [done|]. by exists new.
    + intros Hne. exists new. split; [done|]. by apply Hnew.
    + apply fold_buildWrappers.
  - intros H. injection H as <- <-. cbn. split; [|split].
    + split; [done|]. split; [done|]. exists []. by rewrite app_nil_r.
    + intros _. exists []. split; [by rewrite app_nil_r|constructor].
    + by rewrite append_empty_r.
Qed.

Lemma generateFiles_grows (typeName : string) (fs : list File) :
  forall b b' fs',
    generateFiles Get typeName b fs = Ok (b', fs') ->
    Forall2 (grownFrom typeName) fs fs'
    /\ (nonempty typeName = true -> Forall2 (grownWith typeName) fs fs').
Proof.
  induction fs as [|f fs IH]; intros b b' fs'; cbn [generateFiles].
  - intros H. injection H as <- <-. split; [constructor|]. intros _. constructor.
  - destruct (generateFile Get typeName b f) as [[b1 f1]|] eqn:E; [|done].
    destruct (generateFiles Get typeName b1 fs) as [[b2 rest]|] eqn:Er; [|done].
    intros H. injection H as <- <-.
    apply generateFile_grows in E as (Hg & Hw & _).
    apply IH in Er as [Hgs Hws]. split; [by constructor|].
    intros Hne. constructor; [by apply Hw|by apply Hws].
Qed.

(** X8: [generate] never resets a file.  The tree of each file stays as it
    is and the descriptors found are appended to those the file already
    holds; none is dropped between two type names. *)
Theorem generate_only_appends (typeName : string) (g : Generator) :
  match generate Get typeName g with
  | Ok g' => Forall2 (grownFrom typeName) (files g) (files g')
  | Panic => True
  end.
Proof.
  unfold generate.
  destruct (generateFiles Get typeName (buf g) (files g)) as [[b fs']|] eqn:E; [|done].
  cbn. by apply generateFiles_grows in E as [H _].
Qed.

(** X9: under a type name the filter is sound: every descriptor [generate]
    adds to a file carries the requested name. *)
Theorem generate_filter_sound (typeName : string) (g g' : Generator) :
  nonempty typeName = true ->
  generate Get typeName g = Ok g' ->
  Forall2 (grownWith typeName) (files g) (files g').
Proof.
  unfold generate. intros Hne.
  destruct (generateFiles Get typeName (buf g) (files g)) as [[b fs']|] eqn:E; [|done].
  intros H. injection H as <-. cbn.
  apply generateFiles_grows in E as [_ H]. by apply H.
Qed.

(** X10: what is printed stays printed.  The loop of [main] over the type
    names only appends to the buffer. *)
Theorem text_is_append_only (names : list string) (g : Generator) :
  match mainLoop Get names g with
  | Ok g' => exists out, buf g' = buf g +:+ out
  | Panic => True
  end.
Proof.
  assert (sameRun g g (mainLoop Get names g) (mainLoop Get names g)) as H.
  { destruct names as [|typeName names].
    - apply (generate_sameRun Get EmptyString g g (sameSource_refl _)).
    - apply (generateNames_sameRun Get (typeName :: names) g g (sameSource_refl _)). }
  unfold sameRun in H. destruct (mainLoop Get names g) as [g'|]; [|done].
  destruct H as [(out & Hout & _) _]. by exists out.
Qed.

(** X11: a second call prints the first one again.  In a package of one
    file, the text a call of [generate] appends starts with all the text
    the call before it had appended, whatever the two type names are. *)
Theorem generate_prints_again (t1 t2 : string) (f : File) (g g1 g2 : Generator) :
  files g = [f] ->
  generate Get t1 g = Ok g1 ->
  generate Get t2 g1 = Ok g2 ->
  exists out extra,
    buf g1 = buf g +:+ out /\ buf g2 = buf g1 +:+ out +:+ extra.
Proof.
  unfold generate. intros Hfs. rewrite Hfs. cbn [generateFiles].
  destruct (generateFile Get t1 (buf g) f) as [[b1 f1]|] eqn:E1; [|done].
  intros H. injection H as <-. cbn [files buf generateFiles].
  destruct (generateFile Get t2 b1 f1) as [[b2 f2]|] eqn:E2; [|done].
  intros H. injection H as <-. cbn [buf].
  apply generateFile_grows in E1 as ((Hfile & _) & _ & ->).
  apply generateFile_grows in E2 as ((_ & _ & new & Hv) & _ & ->).
  rewrite Hfile. destruct (file f).
  - exists (blocksText (values f1)), (blocksText new).
    split; [done|]. by rewrite Hv, blocksText_app.
  - exists EmptyString, EmptyString. split; [done|]. by rewrite !append_empty_r.
Qed.

(** The walk finds nothing for a name the tree does not declare. *)
Lemma Inspect_unknown (typeName : string) (n : Node) :
  nonempty typeName = true ->
  declares typeName n = false ->
  forall f, findName f = typeName -> TypeName f <> typeName ->
    exists tn, tn <> typeName
               /\ Inspect Get n f = Ok (mkFile (file f) tn typeName (values f)).
Proof.
  intros Hne. induction n as [t c IH|fs c IH|c IH] using Node_induction;
    cbn [declares]; intros Hd f Hfn Htn; rewrite Inspect_unfold; cbn [genDecl childNodes].
  - apply orb_false_elim in Hd as [Ht Hc]. apply bool_decide_eq_false_1 in Ht.
    cbn. clear Htn. revert IH Hc. generalize (values f). generalize (file f).
    rewrite Hfn. clear f Hfn. revert t Ht.
    induction c as [|n c IHc]; intros t Ht fl vs IH Hc; cbn.
    + by exists t.
    + apply Forall_cons in IH as [Hn IH]. cbn in Hc.
      apply orb_false_elim in Hc as [Hdn Hdc].
      destruct (Hn Hdn (mkFile fl t typeName vs) eq_refl Ht) as (tn & Htn & ->).
      cbn. by apply IHc.
  - assert (negb (nonempty (findName f)) || bool_decide (findName f = TypeName f) = false)
      as ->.
    { rewrite Hfn, Hne. cbn. apply bool_decide_eq_false_2. congruence. }
    cbn. destruct f as [fl tn fn vs]. cbn in *. subst fn.
    revert tn Htn IH Hd. induction c as [|n c IHc]; intros tn Htn IH Hd; cbn.
    + by exists tn.
    + apply Forall_cons in IH as [Hn IH]. cbn in Hd.
      apply orb_false_elim in Hd as [Hdn Hdc].
      destruct (Hn Hdn (mkFile fl tn typeName vs) eq_refl Htn) as (tn' & Htn' & ->).
      cbn. by apply IHc.
  - cbn. destruct f as [fl tn fn vs]. cbn in *. subst fn.
    revert tn Htn IH Hd. induction c as [|n c IHc]; intros tn Htn IH Hd; cbn.
    + by exists tn.
    + apply Forall_cons in IH as [Hn IH]. cbn in Hd.
      apply orb_false_elim in Hd as [Hdn Hdc].
      destruct (Hn Hdn (mkFile fl tn typeName vs) eq_refl Htn) as (tn' & Htn' & ->).
      cbn. by apply IHc.
Qed.

Lemma generateFiles_unknown (typeName : string) (fs : list File) (b : string) :
  nonempty typeName = true ->
  Forall (knowsNot typeName) fs ->
  exists fs', generateFiles Get typeName b fs = Ok (b, fs')
              /\ Forall (fun f => values f = []) fs'.
Proof.
  intros Hne. induction 1 as [|f fs (Hv & Htn & Hd) _ (fs' & IH & Hvs)];
    cbn [generateFiles].
  - exists []. split; [done|constructor].
  - unfold generateFile. cbn [file]. destruct (file f) as [ast|] eqn:Hfile.
    + destruct (Inspect_unknown typeName ast Hne Hd
                  (mkFile (Some ast) (TypeName f) typeName (values f)) eq_refl Htn)
        as (tn & _ & ->).
      cbn. rewrite Hv. cbn. rewrite IH. eexists. split; [done|].
      constructor; [done|exact Hvs].
    + cbn. rewrite IH. eexists. split; [done|]. constructor; [done|exact Hvs].
Qed.


End GenerateMore.

(** ** Splitting and joining *)

Lemma Split_not_nil (s : string) (sep : ascii) : Split s sep <> [].
Proof.
  destruct s as [|c s]; cbn; [done|].
  destruct (Ascii.eqb c sep); [done|]. by destruct (Split s sep).
Qed.

Lemma Join_cons (x : string) (l : list string) (sep : string) :
  l <> [] -> Join (x :: l) sep = x +:+ sep +:+ Join l sep.
Proof. by destruct l. Qed.

Lemma Join_Split (s : string) (sep : ascii) :
  Join (Split s sep) (String sep EmptyString) = s.
Proof.
  induction s as [|c s IH]; [done|]. cbn [Split].
  destruct (Ascii.eqb c sep) eqn:E.
  - apply Ascii.eqb_eq in E as ->.
    rewrite Join_cons by apply Split_not_nil. by rewrite IH.
  - pose proof (Split_not_nil s sep) as Hne.
    destruct (Split s sep) as [|x xs]; [done|].
    destruct xs as [|y xs].
    + cbn in *. by rewrite IH.
    + rewrite Join_cons in IH by done. rewrite Join_cons by done.
      change (String c (x +:+ String sep EmptyString +:+ Join (y :: xs) (String sep EmptyString))
              = String c s). by rewrite IH.
Qed.

Lemma Split_free (s : string) (sep : ascii) :
  hasByte sep s = false -> Split s sep = [s].
Proof.
  induction s as [|c s IH]; [done|]. cbn.
  intros [Hc Hs]%orb_false_elim. rewrite Hc, (IH Hs). done.
Qed.

Lemma Split_app (x rest : string) (sep : ascii) :
  hasByte sep x = false ->
  Split (x +:+ String sep rest) sep = x :: Split rest sep.
Proof.
  induction x as [|c x IH]; cbn [hasByte].
  - intros _. change (EmptyString +:+ String sep rest) with (String sep rest).
    cbn [Split]. by rewrite Ascii.eqb_refl.
  - intros [Hc Hx]%orb_false_elim.
    change (String c x +:+ String sep rest) with (String c (x +:+ String sep rest)).
    cbn [Split]. rewrite Hc, (IH Hx). done.
Qed.

Lemma Split_Join (l : list string) (sep : ascii) :
  l <> [] ->
  forallb (fun x => negb (hasByte sep x)) l = true ->
  Split (Join l (String sep EmptyString)) sep = l.
Proof.
  induction l as [|x l IH]; [done|]. intros _. cbn [forallb].
  intros [Hx Hl]%andb_prop. apply negb_true_iff in Hx.
  destruct l as [|y l].
  - cbn. by apply Split_free.
  - rewrite Join_cons by done.
    change (x +:+ String sep EmptyString +:+ Join (y :: l) (String sep EmptyString))
      with (x +:+ String sep (Join (y :: l) (String sep EmptyString))).
    rewrite (Split_app _ _ _ Hx). f_equal. by apply IH.
Qed.

Lemma Split_entries_free (s : string) (sep : ascii) (p : string) :
  In p (Split s sep) -> hasByte sep p = false.
Proof.
  revert p. induction s as [|c s IH]; cbn [Split]; intros p.
  - intros [<-|[]]. done.
  - destruct (Ascii.eqb c sep) eqn:E.
    + intros [<-|Hin]; [done|by apply IH].
    + pose proof (Split_not_nil s sep) as Hne.
      destruct (Split s sep) as [|x xs]; [done|].
      intros [<-|Hin].
      * cbn. rewrite E. apply IH. by left.
      * apply IH. by right.
Qed.

(** X13: the place holders of a statement.  For a positive count the text
    splits at its commas into exactly that many question marks; for the
    count zero it is empty. *)
Theorem Placeholders_split (n : nat) :
  Placeholders 0 = EmptyString
  /\ Split (Placeholders (S n)) comma = repeat "?" (S n).
Proof.
  split; [done|]. unfold Placeholders.
  apply (Split_Join (repeat "?" (S n)) comma); [done|].
  apply forallb_forall. intros x Hx. apply repeat_spec in Hx. by subst x.
Qed.

Section MainFacts.

Variable Get : string -> string -> string.

(** X14: [main] calls [generate] once for each name of the [-type] flag, in
    the order of the flag, after it has printed the header; the branch for
    an empty list of names is never taken, the empty flag being the list of
    the one empty name, for which [generate] takes every struct. *)
Theorem main_generates_each_name
        (args : list string) (pkgName : string) (names : list string) (g : Generator) :
  names <> [] ->
  forallb (fun x => negb (hasByte comma x)) names = true ->
  (forall typeNames : string, Split typeNames comma <> [])
  /\ mainGenerate Get args pkgName (Join names ",") g
     = generateNames Get names
         (mkGenerator (buf g +:+ mainHeader args pkgName) (files g)).
Proof.
  intros Hne Hfree. split; [intros typeNames; apply Split_not_nil|].
  unfold mainGenerate.
  change "," with (String comma EmptyString).
  rewrite (Split_Join names comma Hne Hfree).
  unfold mainLoop. by destruct names.
Qed.

End MainFacts.

(** * Properties of the run time *)

Section RunTimeFacts.

Variable V : Type.

Lemma filter_keep_all {A : Type} (p : A -> bool) (l : list A) :
  forallb p l = true -> List.filter p l = l.
Proof.
  induction l as [|x l IH]; [done|]. cbn. intros [Hx Hl]%andb_prop.
  rewrite Hx. f_equal. by apply IH.
Qed.

(** The insert columns of an object whose InsertFields lists the key
    column and then the other columns. *)
Lemma insertFields_shape (o : DBObject V) (cols : list string) :
  o_InsertFields o = Join (o_KeyField o :: cols) "," ->
  plainColumn (o_KeyField o) = true ->
  forallb plainColumn cols = true ->
  forallb (fun c => negb (String.eqb c (o_KeyField o))) cols = true ->
  insertFields o = Join cols ",".
Proof.
  intros Hshape Hk Hplain Hne. unfold insertFields. rewrite Hshape.
  change "," with (String comma EmptyString).
  rewrite Split_Join; [|done|].
  2:{ change (forallb plainColumn (o_KeyField o :: cols) = true).
      cbn [forallb]. by rewrite Hk, Hplain. }
  cbn [List.filter]. rewrite String.eqb_refl. cbn [negb].
  by rewrite (filter_keep_all _ _ Hne).
Qed.

Lemma insertQuery_fit (o : DBObject V) (cols : list string) :
  o_InsertFields o = Join (o_KeyField o :: cols) "," ->
  plainColumn (o_KeyField o) = true ->
  forallb plainColumn cols = true ->
  forallb (fun c => negb (String.eqb c (o_KeyField o))) cols = true ->
  List.length (o_InsertValues o) = List.length cols ->
  insertQuery o =
  "insert into " +:+ o_TableName o +:+ " (" +:+ Join cols "," +:+ ") values("
  +:+ Join (map (fun _ => "?") cols) "," +:+ ")".
Proof.
  intros Hshape Hk Hplain Hne Hlen. unfold insertQuery, Placeholders.
  rewrite (insertFields_shape o cols Hshape Hk Hplain Hne), Hlen.
  assert (repeat "?" (List.length cols) = map (fun _ => "?") cols) as ->; [|done].
  clear. induction cols as [|c cols IH]; [done|]. cbn [List.length repeat map].
  by rewrite IH.
Qed.

Lemma updateQuery_fit (o : DBObject V) (cols : list string) :
  o_InsertFields o = Join (o_KeyField o :: cols) "," ->
  plainColumn (o_KeyField o) = true ->
  forallb plainColumn cols = true ->
  forallb (fun c => negb (String.eqb c (o_KeyField o))) cols = true ->
  updateQuery o =
  "update " +:+ o_TableName o +:+ " set "
  +:+ (match cols with
       | [] => "=?"
       | _ :: _ => Join (map (fun c => c +:+ "=?") cols) ","
       end)
  +:+ " where " +:+ o_KeyField o +:+ "=?".
Proof.
  intros Hshape Hk Hplain Hne. unfold updateQuery, setParams.
  rewrite (insertFields_shape o cols Hshape Hk Hplain Hne).
  do 3 f_equal. destruct cols as [|c cols]; [done|].
  change "," with (String comma EmptyString). by rewrite Split_Join.
Qed.

(** X15: the insert statement fits its values.  For an object whose
    InsertFields returns the key column followed by the other columns, as
    the generated method does, the statement names the other columns only
    and has one question mark for each of them, provided the object has one
    insert value for each. *)
Theorem insertQuery_columns_fit (o : DBObject V) (cols : list string) :
  o_InsertFields o = Join (o_KeyField o :: cols) "," ->
  plainColumn (o_KeyField o) = true ->
  forallb plainColumn cols = true ->
  forallb (fun c => negb (String.eqb c (o_KeyField o))) cols = true ->
  List.length (o_InsertValues o) = List.length cols ->
  insertQuery o =
  "insert into " +:+ o_TableName o +:+ " (" +:+ Join cols "," +:+ ") values("
  +:+ Join (map (fun _ => "?") cols) "," +:+ ")".
Proof. apply insertQuery_fit. Qed.

(** X16: the key column never is an insert column.  Whatever InsertFields
    returns, no entry of the list [insertFields] joins is the key column,
    as long as there is a key column. *)
Theorem insertFields_without_key (o : DBObject V) :
  nonempty (o_KeyField o) = true ->
  Forall (fun p => p <> o_KeyField o) (Split (insertFields o) comma).
Proof.
  intros Hkey. unfold insertFields.
  set (keep := List.filter _ _).
  assert (Forall (fun p => p <> o_KeyField o /\ hasByte comma p = false) keep) as Hkeep.
  { subst keep. apply Forall_forall. intros p Hin%list_elem_of_In.
    apply filter_In in Hin as [Hin Hp]. split.
    - apply negb_true_iff, String.eqb_neq in Hp. exact Hp.
    - by apply (Split_entries_free (o_InsertFields o) comma). }
  destruct keep as [|x keep].
  - cbn. constructor; [|constructor]. intros Heq. rewrite <- Heq in Hkey. done.
  - change "," with (String comma EmptyString). rewrite Split_Join; [|done|].
    + eapply Forall_impl; [exact Hkeep|]. by intros p [Hp _].
    + apply forallb_forall. intros p Hin.
      rewrite Forall_forall in Hkeep. apply negb_true_iff.
      apply (Hkeep p). by apply list_elem_of_In.
Qed.

(** X17: the update statement.  For an object whose InsertFields returns
    the key column followed by the other columns, the statement sets each
    of the other columns and selects by the key column; when there is no
    other column the set list is the lone assignment without column. *)
Theorem updateQuery_shape (o : DBObject V) (cols : list string) :
  o_InsertFields o = Join (o_KeyField o :: cols) "," ->
  plainColumn (o_KeyField o) = true ->
  forallb plainColumn cols = true ->
  forallb (fun c => negb (String.eqb c (o_KeyField o))) cols = true ->
  updateQuery o =
  "update " +:+ o_TableName o +:+ " set "
  +:+ (match cols with
       | [] => "=?"
       | _ :: _ => Join (map (fun c => c +:+ "=?") cols) ","
       end)
  +:+ " where " +:+ o_KeyField o +:+ "=?".
Proof. apply updateQuery_fit. Qed.

End RunTimeFacts.

(** * Properties of the run time that reads the tags *)

Section ReflectionFacts.

Variable Get : string -> string -> string.
Variable V : Type.
Variable asInt : V -> option Z.

Local Abbreviation sqlOf := (sqlOf Get V).
Local Abbreviation tableOf := (tableOf Get V).

Lemma dbFieldsLoop_from (skipKey : bool) (obj : list (StructField V))
      (table key : string) (list : list string) :
  exists key',
    fold_left (dbFieldsStep Get V skipKey) obj (table, key, list)
    = (List.last (List.filter nonempty (map tableOf obj)) table, key',
       list ++ map sqlOf (List.filter (inserted Get V skipKey) obj)).
Proof.
  revert table key list. induction obj as [|f obj IH]; intros table key list.
  - exists key. cbn. by rewrite app_nil_r.
  - cbn [fold_left map List.filter].
    destruct (dbFieldsStep Get V skipKey (table, key, list) f) as [[t1 k1] l1] eqn:E.
    destruct (IH t1 k1 l1) as [key' ->]. exists key'.
    unfold dbFieldsStep in E. unfold inserted, sqlOf, tableOf in *.
    destruct (nonempty (Get (sf_Tag f) "table"));
      destruct (String.eqb (Get (sf_Tag f) "key") "true");
      destruct skipKey; destruct (nonempty (Get (sf_Tag f) "sql"));
      cbn -[List.last] in *; simplify_eq; rewrite ?last_cons, <- ?app_assoc, ?app_nil_r; reflexivity.
Qed.

Lemma objFields_from (skipKey : bool) (obj : list (StructField V))
      (key : option V) (a : list V) :
  exists key',
    fold_left (objFieldsStep Get V skipKey) obj (key, a)
    = (key', a ++ map sf_Value (List.filter (inserted Get V skipKey) obj)).
Proof.
  revert key a. induction obj as [|f obj IH]; intros key a.
  - exists key. cbn. by rewrite app_nil_r.
  - cbn [fold_left map List.filter].
    destruct (objFieldsStep Get V skipKey (key, a) f) as [k1 a1] eqn:E.
    destruct (IH k1 a1) as [key' ->]. exists key'.
    unfold objFieldsStep in E. unfold inserted in *.
    destruct (nonempty (Get (sf_Tag f) "sql"));
      destruct (String.eqb (Get (sf_Tag f) "key") "true");
      destruct skipKey;
      cbn in *; simplify_eq; rewrite <- ?app_assoc, ?app_nil_r; reflexivity.
Qed.

Lemma repeat_length_map {A : Type} (l : list A) :
  repeat "?" (List.length l) = map (fun _ => "?") l.
Proof. induction l as [|x l IH]; [done|]. cbn. by rewrite IH. Qed.


Lemma objectUpdate_from (obj : list (StructField V))
      (table key : string) (id : option V) (set : list string) (args : list V) :
  fold_left (objectUpdateStep Get V) obj (table, key, id, set, args)
  = (List.last (List.filter nonempty (map tableOf obj)) table,
     List.last (map sqlOf (List.filter (updateKey Get V) obj)) key,
     List.last (map (fun f => Some (sf_Value f)) (List.filter (updateKey Get V) obj)) id,
     set ++ map (fun f => sqlOf f +:+ "=?") (List.filter (updateColumn Get V) obj),
     args ++ map sf_Value (List.filter (updateColumn Get V) obj)).
Proof.
  revert table key id set args.
  induction obj as [|f obj IH]; intros table key id set args.
  - cbn. by rewrite !app_nil_r.
  - cbn [fold_left map List.filter].
    destruct (objectUpdateStep Get V (table, key, id, set, args) f)
      as [[[[t1 k1] i1] l1] a1] eqn:E.
    rewrite IH. unfold objectUpdateStep in E.
    unfold updateKey, updateColumn, updatable, sqlOf, tableOf in *.
    destruct (nonempty (Get (sf_Tag f) "table"));
      destruct (nonempty (Get (sf_Tag f) "sql"));
      destruct (String.eqb (Get (sf_Tag f) "update") "false");
      destruct (String.eqb (Get (sf_Tag f) "key") "true");
      cbn -[List.last] in *; simplify_eq; rewrite ?last_cons, <- ?app_assoc, ?app_nil_r; reflexivity.
Qed.

Lemma last_map_nonempty (fs : list (StructField V)) :
  Forall (fun f => nonempty (sqlOf f) = true) fs ->
  nonempty (List.last (map sqlOf fs) EmptyString) = false -> fs = [].
Proof.
  intros HF H. induction fs as [|k fs _] using rev_ind; [done|].
  rewrite map_app in H. cbn [map] in H. rewrite last_last in H.
  apply Forall_app in HF as [_ HF]. apply Forall_inv in HF. congruence.
Qed.


Lemma createQuery_from (skipKey : bool) (obj : list (StructField V))
      (table : string) (list : list string) :
  fold_left (createQueryStep Get V skipKey) obj (table, list)
  = (List.last
       (List.filter nonempty
          (map tableOf (List.filter (fun f => nonempty (sqlOf f)) obj))) table,
     list ++ map sqlOf (List.filter (inserted Get V skipKey) obj)).
Proof.
  revert table list. induction obj as [|f obj IH]; intros table list.
  - cbn. by rewrite app_nil_r.
  - cbn [fold_left map List.filter].
    destruct (createQueryStep Get V skipKey (table, list) f) as [t1 l1] eqn:E.
    rewrite IH. unfold createQueryStep in E.
    unfold inserted, sqlOf, tableOf in *.
    destruct (nonempty (Get (sf_Tag f) "sql"));
      destruct (nonempty (Get (sf_Tag f) "table")) eqn:Et;
      destruct skipKey;
      destruct (String.eqb (Get (sf_Tag f) "key") "true");
      cbn -[List.last] in *; rewrite ?Et in *; cbn -[List.last] in *;
      simplify_eq; rewrite ?last_cons, <- ?app_assoc, ?app_nil_r; reflexivity.
Qed.

Lemma sPtrsFrom_lookup (pre obj : list (StructField V)) :
  map (fun i => (pre ++ obj) !! i) (sPtrsFrom Get V (List.length pre) obj)
  = map Some (List.filter (fun f => nonempty (sqlOf f)) obj).
Proof.
  revert pre. induction obj as [|f obj IH]; intros pre; [done|].
  cbn [sPtrsFrom List.filter].
  specialize (IH (pre ++ [f])). rewrite length_app, <- app_assoc in IH.
  cbn [List.length app] in IH. rewrite Nat.add_1_r in IH.
  change (nonempty (sqlOf f)) with (nonempty (Get (sf_Tag f) "sql")).
  destruct (nonempty (Get (sf_Tag f) "sql")); cbn [map]; [|exact IH].
  rewrite IH. f_equal.
  rewrite lookup_app_r by done. by rewrite Nat.sub_diag.
Qed.


End ReflectionFacts.

(** * The generated methods under the run time *)

Section Generated.

Variable Get : string -> string -> string.
Variable V : Type.


End Generated.

(** * The further properties at work *)

(** X2 on the struct of [struct_test.go]. *)
Lemma key_last_wins_witness :
  (KeyName testInfo, KeyField testInfo)
  = lastKey StructTag_Get (EmptyString, EmptyString) testStruct
  /\ Order testInfo = columnMembers StructTag_Get testStruct
  /\ forall n : string,
      stringKeyName n (lastKey StructTag_Get (EmptyString, EmptyString) testStruct).1
        ∈ wrapperBlocks (set_Name n testInfo)
      /\ stringKeyField n (lastKey StructTag_Get (EmptyString, EmptyString) testStruct).2
           ∈ wrapperBlocks (set_Name n testInfo).
Proof.
  apply (key_last_wins StructTag_Get "testStruct" testStruct testInfo).
  by vm_compute.
Defined.

(** X3 on a struct without key. *)
Lemma no_key_descriptor_witness :
  KeyName auditOnlyInfo = EmptyString /\ KeyField auditOnlyInfo = EmptyString
  /\ forall n : string,
      let s' := set_Name n auditOnlyInfo in
      stringNoKey n ∈ wrapperBlocks s'
      /\ stringNoSetID n ∈ wrapperBlocks s'
      /\ stringKeyField n EmptyString ∈ wrapperBlocks s'
      /\ stringKeyName n EmptyString ∈ wrapperBlocks s'
      /\ updateElem s' = w_elem (slicesOf s').
Proof.
  apply (no_key_descriptor StructTag_Get "T" auditOnlyFields auditOnlyInfo).
  - by vm_compute.
  - by vm_compute.
Defined.

(** X4 on the struct of [struct_test.go]. *)
Lemma audit_last_wins_witness :
  UserField testInfo = lastAudit StructTag_Get "user" EmptyString testStruct
  /\ TimeField testInfo = lastAudit StructTag_Get "time" EmptyString testStruct
  /\ forall n : string,
      auditString n (lastAudit StructTag_Get "user" EmptyString testStruct)
                    (lastAudit StructTag_Get "time" EmptyString testStruct)
        ∈ wrapperBlocks (set_Name n testInfo).
Proof.
  apply (audit_last_wins StructTag_Get "testStruct" testStruct testInfo).
  by vm_compute.
Defined.

(** X5 on the example of the specification. *)
Lemma no_audit_empty_body_witness :
  ("func (o *" +:+ "T" +:+ ") ModifiedBy(user int64, t time.Time) {" +:+ nl
   +:+ "}" +:+ nl +:+ nl +:+ nl) ∈ wrapperBlocks (set_Name "T" exampleParsed).
Proof.
  apply (no_audit_empty_body StructTag_Get "T" exampleFields exampleParsed).
  - by vm_compute.
  - by vm_compute.
  - by vm_compute.
Defined.

(** X6 on the struct of [struct_test.go]. *)
Lemma select_fields_are_sql_values_witness :
  map (column testInfo) (Order testInfo) = columnValues StructTag_Get testStruct
  /\ forall n : string,
      stringSelectFields n
        (Join (keyColumn testInfo ++ columnValues StructTag_Get testStruct) ",")
        ∈ wrapperBlocks (set_Name n testInfo).
Proof.
  apply (select_fields_are_sql_values StructTag_Get "testStruct" testStruct testInfo).
  - by vm_compute.
  - apply (bool_decide_unpack _). by vm_compute.
  - by vm_compute.
Defined.

(** X7 on the struct of [struct_test.go]. *)
Lemma names_are_column_members_witness :
  stringNames "testStruct"
    (Join (map (fun k => dq +:+ k +:+ dq) (columnMembers StructTag_Get testStruct)) ",")
    ∈ wrapperBlocks (set_Name "testStruct" testInfo).
Proof.
  apply (names_are_column_members StructTag_Get "testStruct" testStruct testInfo).
  - by vm_compute.
  - by vm_compute.
Defined.

(** X9 on the file of [struct_test.go]. *)
Lemma generate_filter_sound_witness :
  Forall2 (grownWith "testStruct") (files freshGenerator) (files testGenerated).
Proof.
  apply (generate_filter_sound StructTag_Get "testStruct" freshGenerator testGenerated).
  - reflexivity.
  - by vm_compute.
Defined.

(** X11 on the file of [struct_test.go]: the second call is for a type the
    file does not declare, and yet the methods are printed again. *)
Lemma generate_prints_again_witness :
  exists out extra,
    buf testGenerated = buf freshGenerator +:+ out
    /\ buf testGeneratedTwice = buf testGenerated +:+ out +:+ extra.
Proof.
  apply (generate_prints_again StructTag_Get "testStruct" "other"
           (newFile (Some testFile)) freshGenerator testGenerated testGeneratedTwice).
  - reflexivity.
  - by vm_compute.
  - by vm_compute.
Defined.


(** X14 on the flag that names the type of [struct_test.go]. *)
Lemma main_generates_each_name_witness :
  (forall typeNames : string, Split typeNames comma <> [])
  /\ mainGenerate StructTag_Get ["-type"; "testStruct"] "main"
                  (Join ["testStruct"] ",") freshGenerator
     = generateNames StructTag_Get ["testStruct"]
         (mkGenerator (buf freshGenerator +:+ mainHeader ["-type"; "testStruct"] "main")
                      (files freshGenerator)).
Proof.
  apply (main_generates_each_name StructTag_Get ["-type"; "testStruct"] "main"
           ["testStruct"] freshGenerator).
  - done.
  - reflexivity.
Defined.

(** X15 on the object of the example. *)
Lemma insertQuery_columns_fit_witness :
  insertQuery exampleObject =
  "insert into " +:+ o_TableName exampleObject +:+ " (" +:+ Join ["name"] ","
  +:+ ") values(" +:+ Join (map (fun _ => "?") ["name"]) "," +:+ ")".
Proof.
  apply (insertQuery_columns_fit nat exampleObject ["name"]); reflexivity.
Defined.

(** X16 on the object of the example. *)
Lemma insertFields_without_key_witness :
  Forall (fun p => p <> o_KeyField exampleObject)
         (Split (insertFields exampleObject) comma).
Proof.
  apply (insertFields_without_key nat exampleObject). reflexivity.
Defined.

(** X17 on the object of the example. *)
Lemma updateQuery_shape_witness :
  updateQuery exampleObject =
  "update " +:+ o_TableName exampleObject +:+ " set "
  +:+ Join (map (fun c => c +:+ "=?") ["name"]) ","
  +:+ " where " +:+ o_KeyField exampleObject +:+ "=?".
Proof.
  apply (updateQuery_shape nat exampleObject ["name"]); reflexivity.
Defined.

